(** * The close / save / session-quit handshake of [sugar.activity.activity]

    A shallow embedding of the coordination logic of
    [sugar/activity/activity.py]: the [_ActivitySession] will-quit
    negotiation and the [Activity] methods [save], [close],
    [_prepare_close], [_complete_close], the two datastore callbacks,
    the session callbacks and the keep-failed dialog.

    Python methods mutate [self] and call out to GTK, D-Bus, the
    datastore and the file system.  They are embedded as computations in
    a small monad that threads the mutable objects (the activity and the
    process-wide session), can raise a Python exception, and records
    every call that leaves the class in a trace of events. *)

From Stdlib Require Import ZArith Ascii String List Bool Lia.
From stdpp Require Import base gmap strings list pretty.

Open Scope string_scope.
Open Scope Z_scope.
Open Scope list_scope.

(** ** Data *)

(** A journal entry held by the datastore client ([DSObject]): its id
    (absent until the first write), its string-keyed metadata and the
    path of its data file. *)
Record JObject := mkJObject {
  object_id : option string;
  metadata : gmap string string;
  file_path : string
}.

(** A buddy of the presence service, as far as [_get_buddies] reads it. *)
Record Buddy := mkBuddy {
  buddy_key : string;
  buddy_nick : string;
  buddy_color : string;
  buddy_owner : bool
}.

Record SharedActivity := mkSharedActivity {
  joined_buddies : list Buddy
}.

(** The fields of an [Activity] instance that the handshake reads or
    writes.  [self_id] stands for the identity of the Python object,
    which is what the session's lists compare. *)
Record Activity := mkActivity {
  self_id : nat;
  _activity_id : string;
  _active : bool;
  _active_time : option Z;
  _spent_time : Z;
  shared_activity : option SharedActivity;
  _updating_jobject : bool;
  _closing : bool;
  _quit_requested : bool;
  _jobject : option JObject;
  _owns_file : bool
}.

(** [_ActivitySession]: the registered activities and those that agreed
    to quit, both Python lists (order and duplicates are kept). *)
Record ActivitySession := mkSession {
  _activities : list nat;
  _will_quit : list nat
}.

(** The mutable store: one activity, the module-level session it is
    registered with, and the number of asynchronous datastore writes
    that were issued and have not been answered yet. *)
Record World := mkWorld {
  activity : Activity;
  session : ActivitySession;
  ds_pending : nat
}.

(** The alert built by [_show_keep_failed_dialog]: each button is a GTK
    response id, a label and an icon name. *)
Record Alert := mkAlert {
  alert_title : string;
  alert_msg : string;
  alert_buttons : list (Z * string * string)
}.

Definition RESPONSE_OK : Z := -5.
Definition RESPONSE_CANCEL : Z := -6.

(** Python exceptions that the modelled code raises or lets through. *)
Inductive Exn :=
| KeyError (key : string)
| TypeError
| ValueError
| AttributeError
| RuntimeError (msg : string)
| PreviewError
| WriteFileError
| DatastoreError.

(** Calls that leave the class.  [EvWriteFile] carries the activity as
    the overridden [write_file] method sees it (it is called on
    [self]); [EvSessionWillQuit] marks a call of the session's
    [will_quit], [EvXsmpWillQuit] what the session forwards to the XSMP
    client. *)
Inductive Event :=
| EvLog (msg : string)
| EvSetCursorWatch
| EvEmitClosing
| EvAddAlert (a : Alert)
| EvRemoveAlert
| EvReveal
| EvWriteFile (seen : Activity) (path : string)
| EvDatastoreWrite (j : JObject) (async : bool)
| EvDestroy
| EvLeaveShared
| EvOsRemove (path : string)
| EvJobjectDestroy
| EvRemoveFromConnection
| EvOsUnlink
| EvMainQuit
| EvSessionWillQuit (who : nat) (will_quit : bool)
| EvXsmpWillQuit (will_quit : bool).

(** What the subclass's [write_file] did: the base class raises
    [NotImplementedError]; an override returns, having created the file
    or not, or raises something else. *)
Inductive WriteOutcome :=
| WriteNotImplemented
| WriteReturned (file_exists : bool)
| WriteRaised.

(** What [get_preview] did: it returns the image or [None], or an
    override raises. *)
Inductive PreviewOutcome :=
| PreviewReturned (preview : option string)
| PreviewRaised.

(** Everything the code asks of its surroundings: the overridable
    methods, the clock, the process environment, the file system, the
    hashing and JSON encoders, and whether the datastore call fails.
    [write_file_metadata] lists the assignments
    [self.metadata[key] = value] that the overridden [write_file] makes
    before it returns or raises, in order. *)
Record Env := mkEnv {
  can_close : Activity -> bool;
  write_file : Activity -> string -> WriteOutcome;
  write_file_metadata : Activity -> string -> list (string * string);
  get_preview : Activity -> PreviewOutcome;
  time_time : Z;
  SUGAR_ACTIVITY_ROOT : option string;
  os_path_isfile : string -> bool;
  powerd_inhibit_dir_exists : bool;
  powerd_inhibit_file_exists : bool;
  sha1_hexdigest : string -> string;
  json_dumps_keys : gmap string (string * string) -> string;
  json_dumps_dict : gmap string (string * string) -> string;
  datastore_write_raises : JObject -> bool
}.

(** ** Field updates *)

Definition set_active_field (b : bool) (a : Activity) : Activity :=
  mkActivity (self_id a) (_activity_id a) b (_active_time a) (_spent_time a)
    (shared_activity a) (_updating_jobject a) (_closing a)
    (_quit_requested a) (_jobject a) (_owns_file a).

Definition set_active_time (t : option Z) (a : Activity) : Activity :=
  mkActivity (self_id a) (_activity_id a) (_active a) t (_spent_time a)
    (shared_activity a) (_updating_jobject a) (_closing a)
    (_quit_requested a) (_jobject a) (_owns_file a).

Definition set_spent_time (t : Z) (a : Activity) : Activity :=
  mkActivity (self_id a) (_activity_id a) (_active a) (_active_time a) t
    (shared_activity a) (_updating_jobject a) (_closing a)
    (_quit_requested a) (_jobject a) (_owns_file a).

Definition set_updating_jobject (b : bool) (a : Activity) : Activity :=
  mkActivity (self_id a) (_activity_id a) (_active a) (_active_time a)
    (_spent_time a) (shared_activity a) b (_closing a)
    (_quit_requested a) (_jobject a) (_owns_file a).

Definition set_closing (b : bool) (a : Activity) : Activity :=
  mkActivity (self_id a) (_activity_id a) (_active a) (_active_time a)
    (_spent_time a) (shared_activity a) (_updating_jobject a) b
    (_quit_requested a) (_jobject a) (_owns_file a).

Definition set_quit_requested (b : bool) (a : Activity) : Activity :=
  mkActivity (self_id a) (_activity_id a) (_active a) (_active_time a)
    (_spent_time a) (shared_activity a) (_updating_jobject a) (_closing a)
    b (_jobject a) (_owns_file a).

Definition set_jobject (j : option JObject) (a : Activity) : Activity :=
  mkActivity (self_id a) (_activity_id a) (_active a) (_active_time a)
    (_spent_time a) (shared_activity a) (_updating_jobject a) (_closing a)
    (_quit_requested a) j (_owns_file a).

Definition set_owns_file (b : bool) (a : Activity) : Activity :=
  mkActivity (self_id a) (_activity_id a) (_active a) (_active_time a)
    (_spent_time a) (shared_activity a) (_updating_jobject a) (_closing a)
    (_quit_requested a) (_jobject a) b.

Definition with_activity (f : Activity -> Activity) (w : World) : World :=
  mkWorld (f (activity w)) (session w) (ds_pending w).

Definition with_session (f : ActivitySession -> ActivitySession)
    (w : World) : World :=
  mkWorld (activity w) (f (session w)) (ds_pending w).

Definition with_pending (f : nat -> nat) (w : World) : World :=
  mkWorld (activity w) (session w) (f (ds_pending w)).

(** What an overridden [write_file] writes into [self.metadata]. *)
Definition write_metadata (writes : list (string * string)) (a : Activity)
    : Activity :=
  match _jobject a with
  | Some j =>
      set_jobject
        (Some (mkJObject (object_id j)
                 (foldl (fun m kv => <[kv.1 := kv.2]> m) (metadata j) writes)
                 (file_path j))) a
  | None => a
  end.
Arguments write_metadata _ _ /.

(** ** The monad: store, exceptions and a trace *)

Inductive Res (A : Type) :=
| Ok (a : A)
| Raise (e : Exn).
Arguments Ok {A} a.
Arguments Raise {A} e.

Definition M (A : Type) : Type := World -> Res A * World * list Event.

#[export] Instance M_ret : MRet M := fun A a w => (Ok a, w, []).

#[export] Instance M_bind : MBind M := fun A B k m w =>
  match m w with
  | (Ok a, w1, t1) =>
      match k a w1 with
      | (r, w2, t2) => (r, w2, t1 ++ t2)
      end
  | (Raise e, w1, t1) => (Raise e, w1, t1)
  end.

Definition raise {A : Type} (e : Exn) : M A := fun w => (Raise e, w, []).

(** [try: m except: h] with a bare [except] clause. *)
Definition try_except {A : Type} (m : M A) (h : Exn -> M A) : M A := fun w =>
  match m w with
  | (Ok a, w1, t1) => (Ok a, w1, t1)
  | (Raise e, w1, t1) =>
      match h e w1 with
      | (r, w2, t2) => (r, w2, t1 ++ t2)
      end
  end.

Definition emit (e : Event) : M unit := fun w => (Ok tt, w, [e]).
Definition get_self : M Activity := fun w => (Ok (activity w), w, []).
Definition get_session : M ActivitySession := fun w => (Ok (session w), w, []).
Definition modify_self (f : Activity -> Activity) : M unit :=
  fun w => (Ok tt, with_activity f w, []).
Definition modify_session (f : ActivitySession -> ActivitySession) : M unit :=
  fun w => (Ok tt, with_session f w, []).
Definition modify_pending (f : nat -> nat) : M unit :=
  fun w => (Ok tt, with_pending f w, []).
Definition when (b : bool) (m : M unit) : M unit :=
  if b then m else mret tt.

(** Projections of a run. *)
Definition result_of {A : Type} (x : Res A * World * list Event) : Res A :=
  fst (fst x).
Definition world_of {A : Type} (x : Res A * World * list Event) : World :=
  snd (fst x).
Definition trace_of {A : Type} (x : Res A * World * list Event) : list Event :=
  snd x.

Definition is_ok {A : Type} (r : Res A) : bool :=
  match r with Ok _ => true | Raise _ => false end.

(** ** [_ActivitySession] *)

Definition register (act : nat) : M unit :=
  modify_session (fun s => mkSession (_activities s ++ [act]) (_will_quit s)).

(** [list.remove]: drops the first occurrence. *)
Fixpoint list_remove_first (x : nat) (l : list nat) : list nat :=
  match l with
  | [] => []
  | y :: l' => if Nat.eqb y x then l' else y :: list_remove_first x l'
  end.

Definition unregister (act : nat) : M unit :=
  s ← get_session;
  if existsb (Nat.eqb act) (_activities s) then
    modify_session (fun s =>
      mkSession (list_remove_first act (_activities s)) (_will_quit s));;
    s' ← get_session;
    match _activities s' with
    | [] => emit (EvLog "Quitting the activity process.");; emit EvMainQuit
    | _ :: _ => mret tt
    end
  else raise ValueError.

(** The loop of [will_quit]: it returns early at the first registered
    activity that is not in [_will_quit]; the result says whether the
    loop ran to its end. *)
Fixpoint all_agreed (activities agreed : list nat) : bool :=
  match activities with
  | [] => true
  | a :: rest =>
      if existsb (Nat.eqb a) agreed then all_agreed rest agreed else false
  end.

Definition session_will_quit (act : nat) (will_quit : bool) : M unit :=
  emit (EvSessionWillQuit act will_quit);;
  if will_quit then
    modify_session (fun s =>
      mkSession (_activities s) (_will_quit s ++ [act]));;
    s ← get_session;
    if all_agreed (_activities s) (_will_quit s)
    then emit (EvXsmpWillQuit true)
    else mret tt
  else
    modify_session (fun s => mkSession (_activities s) []);;
    emit (EvXsmpWillQuit false).

(** ** String helpers of the Python runtime *)

(** [sep in s]. *)
Fixpoint contains (sep s : string) : bool :=
  if String.prefix sep s then true
  else match s with
       | EmptyString => false
       | String _ s' => contains sep s'
       end.

(** [s.split(sep)] for a non-empty [sep]: a left-to-right scan; [skip]
    counts the characters of a separator still to be passed over and
    [cur] is the piece collected so far. *)
Fixpoint split_go (sep : string) (skip : nat) (cur s : string) : list string :=
  match s with
  | EmptyString => [cur]
  | String c s' =>
      match skip with
      | S k => split_go sep k cur s'
      | O =>
          if String.prefix sep s
          then cur :: split_go sep (Nat.pred (String.length sep)) "" s'
          else split_go sep O (cur +:+ String c "") s'
      end
  end.

Definition split (sep s : string) : list string := split_go sep O "" s.

(** The local function [set_last_value] of [save]. *)
Definition set_last_value (values_list : string) (new_value : Z) : string :=
  if negb (contains ", " values_list) then pretty new_value
  else
    let partial_list := String.concat ", " (removelast (split ", " values_list)) in
    partial_list +:+ ", " +:+ pretty new_value.

Fixpoint endswith_slash (s : string) : bool :=
  match s with
  | EmptyString => false
  | String c EmptyString => Ascii.eqb c "/"%char
  | String _ s' => endswith_slash s'
  end.

(** [os.path.join] on two components (posixpath). *)
Definition os_path_join (a b : string) : string :=
  if String.prefix "/" b then b
  else if orb (String.eqb a "") (endswith_slash a) then a +:+ b
  else a +:+ "/" +:+ b.

(** ** [Activity] *)

Section ActivityMethods.

Variable E : Env.

(** The method [Activity.get_activity_root]. *)
Definition get_activity_root : string :=
  match SUGAR_ACTIVITY_ROOT E with
  | Some r => if String.eqb r "" then "/" else r
  | None => "/"
  end.

Definition _update_spent_time (active : bool) : M unit :=
  if active then modify_self (set_active_time (Some (time_time E)))
  else
    a ← get_self;
    match _active_time a with
    | None => raise TypeError
    | Some t0 =>
        modify_self (set_spent_time (_spent_time a + (time_time E - t0)));;
        modify_self (set_active_time None)
    end.

Definition _get_buddies (a : Activity) : gmap string (string * string) :=
  match shared_activity a with
  | Some sa =>
      fold_left
        (fun buddies buddy =>
           if buddy_owner buddy then buddies
           else <[sha1_hexdigest E (buddy_key buddy) :=
                    (buddy_nick buddy, buddy_color buddy)]> buddies)
        (joined_buddies sa) ∅
  | None => ∅
  end.

(** [self.metadata[key]] and [self.metadata[key] = value]. *)
Definition metadata_get (key : string) : M string :=
  a ← get_self;
  match _jobject a with
  | None => raise TypeError
  | Some j =>
      match metadata j !! key with
      | Some v => mret v
      | None => raise (KeyError key)
      end
  end.

Definition metadata_set (key value : string) : M unit :=
  a ← get_self;
  match _jobject a with
  | None => raise TypeError
  | Some j =>
      modify_self (set_jobject
        (Some (mkJObject (object_id j) (<[key := value]> (metadata j))
                 (file_path j))))
  end.

(** [datastore.write]; with handlers the call is asynchronous and the
    datastore owes one reply.  What the datastore itself does to the
    entry is outside this class. *)
Definition datastore_write (j : JObject) (async : bool) : M unit :=
  emit (EvDatastoreWrite j async);;
  if datastore_write_raises E j then raise DatastoreError
  else when async (modify_pending S).

Definition save : M unit :=
  a ← get_self;
  match _jobject a with
  | None => emit (EvLog "Cannot save, no journal object.")
  | Some _ =>
    emit (EvLog "Activity.save");;
    if _updating_jobject a then
      emit (EvLog "Activity.save: still processing a previous request.")
    else
      let buddies_dict := _get_buddies a in
      when (negb (bool_decide (buddies_dict = ∅)))
        (metadata_set "buddies_id" (json_dumps_keys E buddies_dict);;
         metadata_set "buddies" (json_dumps_dict E (_get_buddies a)));;
      when (_active a) (_update_spent_time false);;
      values_list ← metadata_get "spent-times";
      a1 ← get_self;
      metadata_set "spent-times"
        (set_last_value values_list (_spent_time a1));;
      a2 ← get_self;
      match get_preview E a2 with
      | PreviewReturned (Some preview) => metadata_set "preview" preview
      | PreviewReturned None => mret tt
      | PreviewRaised => raise PreviewError
      end;;
      activity_id ← (a3 ← get_self;
                     match _jobject a3 with
                     | None => raise AttributeError
                     | Some j => mret (default "" (metadata j !! "activity_id"))
                     end);
      when (String.eqb activity_id "")
        (a3 ← get_self; metadata_set "activity_id" (_activity_id a3));;
      let file_path :=
        os_path_join (os_path_join get_activity_root "instance")
                     (pretty (time_time E)) in
      a4 ← get_self;
      emit (EvWriteFile a4 file_path);;
      modify_self (write_metadata (write_file_metadata E a4 file_path));;
      match write_file E a4 file_path with
      | WriteNotImplemented =>
          emit (EvLog "Activity.write_file is not implemented.")
      | WriteRaised => raise WriteFileError
      | WriteReturned file_exists =>
          when file_exists
            (modify_self (set_owns_file true);;
             modify_self (fun a =>
               match _jobject a with
               | Some j =>
                   set_jobject
                     (Some (mkJObject (object_id j) (metadata j) file_path)) a
               | None => a
               end))
      end;;
      a5 ← get_self;
      match _jobject a5 with
      | None => raise AttributeError
      | Some j =>
          match object_id j with
          | None => datastore_write j false
          | Some _ =>
              modify_self (set_updating_jobject true);;
              datastore_write j true
          end
      end
  end.

Definition copy : M unit :=
  a ← get_self;
  match _jobject a with
  | None => raise AttributeError
  | Some _ =>
      emit (EvLog "Activity.copy");;
      save;;
      modify_self (fun a =>
        match _jobject a with
        | Some j => set_jobject (Some (mkJObject None (metadata j) (file_path j))) a
        | None => a
        end)
  end.

Definition set_active (active : bool) : M unit :=
  a ← get_self;
  if Bool.eqb (_active a) active then mret tt
  else
    modify_self (set_active_field active);;
    _update_spent_time active;;
    a' ← get_self;
    when (negb (_active a') && bool_decide (is_Some (_jobject a'))) save.

Definition _cleanup_jobject : M unit :=
  a ← get_self;
  match _jobject a with
  | Some j =>
      when (_owns_file a && os_path_isfile E (file_path j))
        (emit (EvLog "_cleanup_jobject: removing");;
         emit (EvOsRemove (file_path j)));;
      modify_self (set_owns_file false);;
      emit EvJobjectDestroy;;
      modify_self (set_jobject None)
  | None => mret tt
  end.

Definition _complete_close : M unit :=
  emit EvDestroy;;
  a ← get_self;
  when (bool_decide (is_Some (shared_activity a))) (emit EvLeaveShared);;
  _cleanup_jobject;;
  emit EvRemoveFromConnection;;
  when (powerd_inhibit_dir_exists E && powerd_inhibit_file_exists E)
    (emit EvOsUnlink);;
  unregister (self_id a).

Definition keep_failed_alert : Alert :=
  mkAlert "Keep error" "Keep error: all changes will be lost"
    [ (RESPONSE_CANCEL, "Don't stop", "dialog-cancel");
      (RESPONSE_OK, "Stop anyway", "dialog-ok") ].

Definition _show_keep_failed_dialog : M unit :=
  emit (EvAddAlert keep_failed_alert);;
  emit EvReveal.

Definition __save_cb : M unit :=
  emit (EvLog "Activity.__save_cb");;
  modify_self (set_updating_jobject false);;
  a ← get_self;
  if _quit_requested a then session_will_quit (self_id a) true
  else if _closing a then _complete_close
  else mret tt.

Definition __save_error_cb : M unit :=
  emit (EvLog "Activity.__save_error_cb");;
  modify_self (set_updating_jobject false);;
  a ← get_self;
  when (_quit_requested a) (session_will_quit (self_id a) false);;
  when (_closing a)
    (_show_keep_failed_dialog;;
     modify_self (set_closing false));;
  raise (RuntimeError "Error saving activity object to datastore").

Definition _prepare_close (skip_save : bool) : M bool :=
  saved ← (if negb skip_save then
             try_except (save;; mret true)
               (fun _ =>
                  emit (EvLog "Error saving activity object to datastore");;
                  _show_keep_failed_dialog;;
                  mret false)
           else mret true) : M bool;
  if (saved : bool) then
    modify_self (set_closing true);;
    mret true
  else mret false.

Definition close (skip_save : bool) : M unit :=
  a ← get_self;
  if negb (can_close E a) then mret tt
  else
    emit EvSetCursorWatch;;
    emit EvEmitClosing;;
    a1 ← get_self;
    go_on ← (if negb (_closing a1) then _prepare_close skip_save
             else mret true) : M bool;
    if negb go_on then mret tt
    else
      a2 ← get_self;
      when (negb (_updating_jobject a2)) _complete_close.

Definition __session_quit_requested_cb : M unit :=
  modify_self (set_quit_requested true);;
  prepared ← _prepare_close false;
  a ← get_self;
  when (prepared && negb (_updating_jobject a))
    (session_will_quit (self_id a) true).

Definition __session_quit_cb : M unit := _complete_close.

Definition _keep_failed_dialog_response_cb (response_id : Z) : M unit :=
  emit EvRemoveAlert;;
  if Z.eqb response_id RESPONSE_OK then
    close true;;
    a ← get_self;
    when (_quit_requested a) (session_will_quit (self_id a) true)
  else
    a ← get_self;
    when (_quit_requested a) (session_will_quit (self_id a) false).

Definition __delete_event_cb : M bool := close false;; mret true.

End ActivityMethods.

(** ** The event loop *)

(** What can happen to a running activity: a call of one of its public
    methods or GTK callbacks, a signal of the session, or the datastore
    answering an asynchronous write. *)
Inductive Action :=
| DoClose (skip_save : bool)
| DoSave
| DoCopy
| DoSetActive (active : bool)
| SessionQuitRequested
| SessionQuit
| DialogResponse (response_id : Z)
| DatastoreReply
| DatastoreFailure.

(** The datastore calls [reply_handler] or [error_handler] and no longer
    owes the answer. *)
Definition datastore_reply (E : Env) : M unit :=
  modify_pending Nat.pred;; __save_cb E.

Definition datastore_failure (E : Env) : M unit :=
  modify_pending Nat.pred;; __save_error_cb.

Definition perform (E : Env) (act : Action) : M unit :=
  match act with
  | DoClose skip_save => close E skip_save
  | DoSave => save E
  | DoCopy => copy E
  | DoSetActive active => set_active E active
  | SessionQuitRequested => __session_quit_requested_cb E
  | SessionQuit => __session_quit_cb E
  | DialogResponse response_id => _keep_failed_dialog_response_cb E response_id
  | DatastoreReply => datastore_reply E
  | DatastoreFailure => datastore_failure E
  end.

(** The datastore only answers a write it still owes an answer to. *)
Definition enabled (act : Action) (w : World) : bool :=
  match act with
  | DatastoreReply | DatastoreFailure => negb (Nat.eqb (ds_pending w) 0)
  | _ => true
  end.

(** One turn of the main loop; the surroundings may differ from turn to
    turn.  An exception ends the callback, not the process. *)
Inductive step : World -> World -> Prop :=
| step_perform (E : Env) (act : Action) (w : World) :
    enabled act w = true ->
    step w (world_of (perform E act w)).

Inductive reachable (w0 : World) : World -> Prop :=
| reachable_start : reachable w0 w0
| reachable_step (w w' : World) :
    reachable w0 w -> step w w' -> reachable w0 w'.

(** At most one asynchronous write is in flight, and none while
    [_updating_jobject] is clear. *)
Definition consistent (w : World) : Prop :=
  (ds_pending w <= 1)%nat /\
  (_updating_jobject (activity w) = false -> ds_pending w = 0%nat).

(** ** Reading traces *)

Definition is_finalize (e : Event) : bool :=
  match e with EvDestroy => true | _ => false end.

Definition is_keep_failed_prompt (e : Event) : bool :=
  match e with EvAddAlert _ => true | _ => false end.

Definition is_report (will_quit : bool) (e : Event) : bool :=
  match e with
  | EvSessionWillQuit _ b => Bool.eqb b will_quit
  | _ => false
  end.

Definition is_forward (will_quit : bool) (e : Event) : bool :=
  match e with
  | EvXsmpWillQuit b => Bool.eqb b will_quit
  | _ => false
  end.

Definition is_datastore_write (e : Event) : bool :=
  match e with EvDatastoreWrite _ _ => true | _ => false end.

Definition is_write_file (e : Event) : bool :=
  match e with EvWriteFile _ _ => true | _ => false end.

Definition is_log (e : Event) : bool :=
  match e with EvLog _ => true | _ => false end.

(** The close was finalized: [_complete_close] ran. *)
Definition finalized (t : list Event) : bool := existsb is_finalize t.
(** The recovery prompt was put on screen. *)
Definition prompt_shown (t : list Event) : bool := existsb is_keep_failed_prompt t.
(** The activity told the session that it will, or will not, quit. *)
Definition reported (will_quit : bool) (t : list Event) : bool :=
  existsb (is_report will_quit) t.
(** The session passed an answer on to the XSMP client. *)
Definition forwarded (will_quit : bool) (t : list Event) : bool :=
  existsb (is_forward will_quit) t.
(** The body of [save] ran: [write_file] or [datastore.write] was called. *)
Definition save_work (t : list Event) : bool :=
  existsb (fun e => is_write_file e || is_datastore_write e) t.

(** The close that started in [before] is complete: the window is
    destroyed, the journal object released and the activity taken off
    the session's list. *)
Definition close_completed (before : World)
    (run : Res unit * World * list Event) : Prop :=
  finalized (trace_of run) = true /\
  _jobject (activity (world_of run)) = None /\
  _activities (session (world_of run)) =
    list_remove_first (self_id (activity before))
      (_activities (session before)).

(** Every [write_file] call in the trace found [_closing] still clear. *)
Definition closing_clear_at_save (e : Event) : bool :=
  match e with
  | EvWriteFile seen _ => negb (_closing seen)
  | _ => true
  end.

(** Every [write_file] call in the trace found [_closing] already set. *)
Definition closing_set_before_save (t : list Event) : bool :=
  forallb (fun e => match e with
                    | EvWriteFile seen _ => _closing seen
                    | _ => true
                    end) t.

(** ** Properties of computations *)

(** [inv I m]: running [m] keeps [I], whether [m] returns or raises. *)
Definition inv (I : World -> Prop) {A : Type} (m : M A) : Prop :=
  forall w, I w -> I (world_of (m w)).

(** [quiet p m]: [m] never produces an event that satisfies [p]. *)
Definition quiet (p : Event -> bool) {A : Type} (m : M A) : Prop :=
  forall w, existsb p (trace_of (m w)) = false.

(** The flags of the handshake other than [_updating_jobject], the
    identity of the activity and the session. *)
Definition coordination (w : World) : bool * bool * nat * ActivitySession :=
  (_closing (activity w), _quit_requested (activity w),
   self_id (activity w), session w).

(** [tracked J T m]: [m] keeps the property [J] of the activity, and
    every event it produces passes [T]. *)
Definition tracked (J : Activity -> Prop) (T : Event -> bool) {A : Type}
    (m : M A) : Prop :=
  forall w, J (activity w) ->
    J (activity (world_of (m w))) /\ forallb T (trace_of (m w)) = true.

(** [hoare P m Q]: from a store with [P], [m] ends, returning or
    raising, in a store with [Q]. *)
Definition hoare (P : World -> Prop) {A : Type} (m : M A)
    (Q : World -> Prop) : Prop :=
  forall w, P w -> Q (world_of (m w)).

(** No write is in flight and none is believed to be. *)
Definition idle (w : World) : Prop :=
  ds_pending w = 0%nat /\ _updating_jobject (activity w) = false.

(** Nothing is in flight: the state right after the datastore has
    answered. *)
Definition settled (w : World) : Prop := ds_pending w = 0%nat.

(** ** A running activity, for the examples

    A resumed activity (its journal entry has an id, so saving is
    asynchronous) whose [write_file] creates the file, registered alone
    with the session. *)

Definition sample_env : Env :=
  mkEnv (fun _ => true) (fun _ _ => WriteReturned true) (fun _ _ => [])
    (fun _ => PreviewReturned None)
    1000 (Some "/home/olpc/isolation/1/uid_to_instance_dir/10001")
    (fun _ => true) false false (fun key => key)
    (fun _ => "[]") (fun _ => "{}") (fun _ => false).

Definition sample_jobject : JObject :=
  mkJObject (Some "5a1f4072") {[ "spent-times" := "0" ]} "".

Definition sample_activity : Activity :=
  mkActivity 1%nat "c0ffee" false None 0 None false false false
    (Some sample_jobject) false.

Definition sample_world : World :=
  mkWorld sample_activity (mkSession [1%nat] []) 0%nat.

(** The same activity with an application that refuses to close. *)
Definition vetoing_env : Env :=
  mkEnv (fun _ => false) (write_file sample_env)
    (write_file_metadata sample_env) (get_preview sample_env)
    (time_time sample_env) (SUGAR_ACTIVITY_ROOT sample_env)
    (os_path_isfile sample_env) false false (sha1_hexdigest sample_env)
    (json_dumps_keys sample_env) (json_dumps_dict sample_env)
    (datastore_write_raises sample_env).

(** A journal entry that was never written (no id yet): saving it is
    synchronous. *)
Definition fresh_world : World :=
  with_activity
    (set_jobject (Some (mkJObject None (metadata sample_jobject) ""))) sample_world.

(** A journal entry without the [spent-times] key: [save] raises
    [KeyError]. *)
Definition broken_world : World :=
  with_activity (set_jobject (Some (mkJObject (Some "5a1f4072") ∅ "")))
    sample_world.

(** An asynchronous write is in flight. *)
Definition saving_world : World :=
  mkWorld (set_updating_jobject true sample_activity) (session sample_world) 1%nat.

(** The session asked to quit, the save went out asynchronously and has
    not been answered: both [_quit_requested] and [_closing] are set. *)
Definition quitting_world : World :=
  world_of (__session_quit_requested_cb sample_env sample_world).

(** The surroundings of [sample_env] with a [write_file] that raises. *)
Definition failing_write_env : Env :=
  mkEnv (can_close sample_env) (fun _ _ => WriteRaised)
    (write_file_metadata sample_env) (get_preview sample_env)
    (time_time sample_env)
    (SUGAR_ACTIVITY_ROOT sample_env) (os_path_isfile sample_env) false false
    (sha1_hexdigest sample_env) (json_dumps_keys sample_env)
    (json_dumps_dict sample_env) (datastore_write_raises sample_env).

(** The session asked to quit, [save()] failed and the user answered
    [Don't stop]: the activity goes on, and nothing has reset
    [_quit_requested]. *)
Definition refused_quit_world : World :=
  world_of (perform sample_env (DialogResponse RESPONSE_CANCEL)
    (world_of (perform failing_write_env SessionQuitRequested sample_world))).

(** Two activities of the same bundle share the process and its
    session. *)
Definition shared_process_world : World :=
  mkWorld sample_activity (mkSession [1%nat; 2%nat] []) 0%nat.

(** No journal entry at all ([create_jobject=False]). *)
Definition bare_world : World :=
  with_activity (set_jobject None) sample_world.

(** ** Creating and resuming the journal entry ([__init__]) *)

Definition SCOPE_PRIVATE : string := "private".
Definition SCOPE_INVITE_ONLY : string := "invite".
Definition SCOPE_NEIGHBORHOOD : string := "public".


(** ** Sharing and invitations *)

Definition __privacy_changed_cb (private : bool) : M unit :=
  emit (EvLog "__privacy_changed_cb");;
  a ← get_self;
  match _jobject a with
  | None => raise AttributeError
  | Some _ =>
      metadata_set "share-scope"
        (if private then SCOPE_INVITE_ONLY else SCOPE_NEIGHBORHOOD)
  end.

(** The activity object of the presence service, as far as the sharing
    code reads it: [props.joined]. *)
Record MeshActivity := mkMeshActivity {
  mesh_joined : bool
}.

(** The sharing fields of an [Activity]. *)
Record Sharing := mkSharing {
  mesh_instance : option MeshActivity;
  _invites_queue : list (string * string)
}.

(** Calls of the sharing code that leave the class. *)
Inductive ShareCall :=
| CallShareActivity (private : bool)
| CallJoin
| CallJoinedCb
| CallInvite (buddy : Buddy)
| CallLogNoSuchBuddy (account_path contact_id : string)
| CallLogUnknownScope (share_scope : string).

Definition ShareRun : Type := Res unit * Sharing * list ShareCall.

Definition share (private : bool) (sh : Sharing) : ShareRun :=
  if match mesh_instance sh with
     | Some m => mesh_joined m
     | None => false
     end
  then (Raise (RuntimeError "Activity already shared."), sh, [])
  else (Ok tt, sh, [CallShareActivity private]).

(** The loop of [_send_invites]: [pop()] takes the last entry of the
    queue, so the loop walks the queue from its end; [pending] is the
    queue reversed.  It returns what is left of it. *)
Fixpoint _send_invites_loop (get_buddy : string -> string -> option Buddy)
    (shared : bool) (pending : list (string * string))
    : Res unit * list (string * string) * list ShareCall :=
  match pending with
  | [] => (Ok tt, [], [])
  | (account_path, contact_id) :: rest =>
      match get_buddy account_path contact_id with
      | Some buddy =>
          if shared then
            match _send_invites_loop get_buddy shared rest with
            | (r, remaining, calls) => (r, remaining, CallInvite buddy :: calls)
            end
          else (Raise AttributeError, rest, [])
      | None =>
          match _send_invites_loop get_buddy shared rest with
          | (r, remaining, calls) =>
              (r, remaining,
               CallLogNoSuchBuddy account_path contact_id :: calls)
          end
      end
  end.

Definition _send_invites (get_buddy : string -> string -> option Buddy)
    (sh : Sharing) : ShareRun :=
  match _send_invites_loop get_buddy
          (bool_decide (is_Some (mesh_instance sh)))
          (rev (_invites_queue sh)) with
  | (r, remaining, calls) =>
      (r, mkSharing (mesh_instance sh) (rev remaining), calls)
  end.

Definition invite (get_buddy : string -> string -> option Buddy)
    (account_path contact_id : string) (sh : Sharing) : ShareRun :=
  let sh1 :=
    mkSharing (mesh_instance sh)
      (_invites_queue sh ++ [(account_path, contact_id)]) in
  if match mesh_instance sh1 with
     | None => true
     | Some m => negb (mesh_joined m)
     end
  then share true sh1
  else _send_invites get_buddy sh1.

(** [_set_up_sharing].  An instance that is already joined has
    [__joined_cb] called at once; that callback runs on the journal
    store (it ends in [__privacy_changed_cb], which raises without a
    journal object), so what it returns is given as [joined_cb]. *)
Definition _set_up_sharing (joined_cb : Res unit)
    (mesh : option MeshActivity) (share_scope : string) (sh : Sharing)
    : ShareRun :=
  match mesh with
  | Some m =>
      let sh1 := mkSharing (Some m) (_invites_queue sh) in
      if negb (mesh_joined m) then (Ok tt, sh1, [CallJoin])
      else (joined_cb, sh1, [CallJoinedCb])
  | None =>
      if negb (String.eqb share_scope SCOPE_PRIVATE) then
        if String.eqb share_scope SCOPE_INVITE_ONLY then share true sh
        else if String.eqb share_scope SCOPE_NEIGHBORHOOD then share false sh
        else (Ok tt, sh, [CallLogUnknownScope share_scope])
      else (Ok tt, sh, [])
  end.

(** ** The suspend monitor *)

(** [SuspendMonitor._file_changed_cb]: [content] is the integer read
    from the DCON sleep file.  The monitor's own field is updated before
    the activity is told, so the update is given on its own. *)
Definition monitor_after (_is_suspended : option bool) (changed : bool)
    (content : Z) : option bool :=
  if negb changed then _is_suspended
  else Some (negb (content =? 0)).

Definition _file_changed_cb (E : Env) (_is_suspended : option bool)
    (changed : bool) (content : Z) : M unit :=
  if negb changed then mret tt
  else
    let is_suspended := negb (content =? 0) in
    if match _is_suspended with
       | Some b => Bool.eqb is_suspended b
       | None => false
       end
    then mret tt
    else set_active E (negb is_suspended).

(** ** Helpers for statements *)

(** [s] without its first [k] characters. *)
Fixpoint drop_chars (k : nat) (s : string) : string :=
  match k, s with
  | O, _ => s
  | S k', String _ s' => drop_chars k' s'
  | S _, EmptyString => EmptyString
  end.

(** The metadata of the journal entry, if there is one. *)
Definition journal_metadata (w : World) : option (gmap string string) :=
  metadata <$> _jobject (activity w).

(** The keys that [save] may write. *)
Definition save_keys : list string :=
  ["buddies_id"; "buddies"; "spent-times"; "preview"; "activity_id"].

Definition is_invite (c : ShareCall) : bool :=
  match c with CallInvite _ => true | _ => false end.

(** [spec P m Q]: from a store with [P], [m] ends with a result and a
    store related by [Q]. *)
Definition spec {A : Type} (P : World -> Prop) (m : M A)
    (Q : Res A -> World -> Prop) : Prop :=
  forall w, P w -> Q (result_of (m w)) (world_of (m w)).

(** ** States and samples for the further properties *)

(** No write was started and the journal entry has no id. *)
Definition unsaved_entry (n : nat) (w : World) : Prop :=
  _updating_jobject (activity w) = false /\
  ds_pending w = n /\
  exists j, _jobject (activity w) = Some j /\ object_id j = None.

(** No write was started and the journal entry has an id. *)
Definition saved_entry (n : nat) (w : World) : Prop :=
  _updating_jobject (activity w) = false /\
  ds_pending w = n /\
  exists j oid, _jobject (activity w) = Some j /\ object_id j = Some oid.

(** The activity is active, has a journal entry and no write going. *)
Definition active_idle (w : World) : Prop :=
  _active (activity w) = true /\
  _updating_jobject (activity w) = false /\
  exists j, _jobject (activity w) = Some j.

(** The activity is active but its activation time is gone. *)
Definition active_untimed (w : World) : Prop :=
  _active (activity w) = true /\
  _active_time (activity w) = None /\
  exists j, _jobject (activity w) = Some j.

(** The new entry of [fresh_world], with the activity in the
    foreground since time 900. *)
Definition active_world : World :=
  with_activity
    (fun a => set_active_time (Some 900) (set_active_field true a))
    fresh_world.


Definition has_jobject (w : World) : Prop :=
  exists j, _jobject (activity w) = Some j.

(** The journal entry, if any, maps [key] to [x]. *)
Definition keeps_key (key : string) (x : option string) (w : World) : Prop :=
  journal_metadata w ≫= (fun m => m !! key) = x.

(** The surroundings of [sample_env] with a [write_file] that records
    the page shown, as the Read activity does. *)
Definition paging_env : Env :=
  mkEnv (can_close sample_env) (write_file sample_env)
    (fun _ _ => [("page", "3")]) (get_preview sample_env)
    (time_time sample_env) (SUGAR_ACTIVITY_ROOT sample_env)
    (os_path_isfile sample_env) false false (sha1_hexdigest sample_env)
    (json_dumps_keys sample_env) (json_dumps_dict sample_env)
    (datastore_write_raises sample_env).

(** The entry of [sample_world] with a title. *)
Definition titled_world : World :=
  with_activity
    (set_jobject
       (Some (mkJObject (Some "5a1f4072")
                (<["title" := "Report"]> (metadata sample_jobject)) "")))
    sample_world.

(** The surroundings of [sample_env] with a datastore that refuses
    every write. *)
Definition failing_datastore_env : Env :=
  mkEnv (can_close sample_env) (write_file sample_env)
    (write_file_metadata sample_env) (get_preview sample_env)
    (time_time sample_env)
    (SUGAR_ACTIVITY_ROOT sample_env) (os_path_isfile sample_env) false false
    (sha1_hexdigest sample_env) (json_dumps_keys sample_env)
    (json_dumps_dict sample_env) (fun _ => true).

(** The resumed entry of [sample_world], with the activity in the
    foreground since time 900. *)
Definition foreground_world : World :=
  with_activity
    (fun a => set_active_time (Some 900) (set_active_field true a))
    sample_world.

Definition is_os_remove (e : Event) : bool :=
  match e with EvOsRemove _ => true | _ => false end.

Definition is_main_quit (e : Event) : bool :=
  match e with EvMainQuit => true | _ => false end.

(** What [_send_invites] does with one queued contact. *)
Definition invite_call (get_buddy : string -> string -> option Buddy)
    (contact : string * string) : ShareCall :=
  match get_buddy (fst contact) (snd contact) with
  | Some buddy => CallInvite buddy
  | None => CallLogNoSuchBuddy (fst contact) (snd contact)
  end.

(** A presence service that knows one buddy. *)
Definition sample_buddy : Buddy := mkBuddy "key-ana" "ana" "#ff0000,#00ff00" false.

Definition sample_get_buddy (account_path contact_id : string) : option Buddy :=
  if String.eqb contact_id "ana" then Some sample_buddy else None.

(** The journal entry has the key that [save] reads. *)
Definition savable (w : World) : Prop :=
  exists j v, _jobject (activity w) = Some j /\
              metadata j !! "spent-times" = Some v.

(** ... and the activity, if active, knows since when. *)
Definition ready (b : bool) (w : World) : Prop :=
  _active (activity w) = b /\
  (b = true -> exists t0, _active_time (activity w) = Some t0) /\
  savable w.

(** Surroundings in which neither of the overridable methods
    [get_preview] and [write_file] nor the datastore raises. *)
Definition obliging (E : Env) : Prop :=
  (forall a, get_preview E a <> PreviewRaised) /\
  (forall a path, write_file E a path <> WriteRaised) /\
  (forall j, datastore_write_raises E j = false).

(** ** Reasoning rules for the monad *)

Lemma run_bind {A B : Type} (m : M A) (k : A -> M B) (w : World) :
  (m ≫= k) w =
  match m w with
  | (Ok a, w1, t1) =>
      match k a w1 with
      | (r, w2, t2) => (r, w2, t1 ++ t2)
      end
  | (Raise e, w1, t1) => (Raise e, w1, t1)
  end.
Proof. reflexivity. Qed.

Section Rules.

Context {A B : Type}.
Variable I : World -> Prop.
Variable p : Event -> bool.

Lemma inv_ret (a : A) : inv I (mret a : M A).
Proof. intros w H. exact H. Qed.

Lemma inv_raise (e : Exn) : inv I (raise e : M A).
Proof. intros w H. exact H. Qed.

Lemma inv_emit (e : Event) : inv I (emit e).
Proof. intros w H. exact H. Qed.

Lemma inv_get_self : inv I get_self.
Proof. intros w H. exact H. Qed.

Lemma inv_get_session : inv I get_session.
Proof. intros w H. exact H. Qed.

Lemma inv_bind (m : M A) (k : A -> M B) :
  inv I m -> (forall a, inv I (k a)) -> inv I (m ≫= k).
Proof.
  intros Hm Hk w H. rewrite run_bind.
  specialize (Hm w H). unfold world_of in *.
  destruct (m w) as [[[a | e] w1] t1]; simpl in *; [| exact Hm].
  specialize (Hk a w1 Hm).
  destruct (k a w1) as [[r w2] t2]; simpl in *. exact Hk.
Qed.

Lemma inv_try_except (m : M A) (h : Exn -> M A) :
  inv I m -> (forall e, inv I (h e)) -> inv I (try_except m h).
Proof.
  intros Hm Hh w H. unfold try_except.
  specialize (Hm w H). unfold world_of in *.
  destruct (m w) as [[[a | e] w1] t1]; simpl in *; [exact Hm |].
  specialize (Hh e w1 Hm).
  destruct (h e w1) as [[r w2] t2]; simpl in *. exact Hh.
Qed.

Lemma inv_when (b : bool) (m : M unit) : inv I m -> inv I (when b m).
Proof. intros Hm. destruct b; [exact Hm | intros w H; exact H]. Qed.

Lemma inv_modify_self (f : Activity -> Activity) :
  (forall w, I w -> I (with_activity f w)) -> inv I (modify_self f).
Proof. intros Hf w H. apply Hf, H. Qed.

Lemma inv_modify_session (f : ActivitySession -> ActivitySession) :
  (forall w, I w -> I (with_session f w)) -> inv I (modify_session f).
Proof. intros Hf w H. apply Hf, H. Qed.

Lemma inv_modify_pending (f : nat -> nat) :
  (forall w, I w -> I (with_pending f w)) -> inv I (modify_pending f).
Proof. intros Hf w H. apply Hf, H. Qed.

Lemma quiet_ret (a : A) : quiet p (mret a : M A).
Proof. intros w. reflexivity. Qed.

Lemma quiet_raise (e : Exn) : quiet p (raise e : M A).
Proof. intros w. reflexivity. Qed.

Lemma quiet_emit (e : Event) : p e = false -> quiet p (emit e).
Proof. intros He w. simpl. rewrite He. reflexivity. Qed.

Lemma quiet_get_self : quiet p get_self.
Proof. intros w. reflexivity. Qed.

Lemma quiet_get_session : quiet p get_session.
Proof. intros w. reflexivity. Qed.

Lemma quiet_modify_self (f : Activity -> Activity) : quiet p (modify_self f).
Proof. intros w. reflexivity. Qed.

Lemma quiet_modify_session (f : ActivitySession -> ActivitySession) :
  quiet p (modify_session f).
Proof. intros w. reflexivity. Qed.

Lemma quiet_modify_pending (f : nat -> nat) : quiet p (modify_pending f).
Proof. intros w. reflexivity. Qed.

Lemma quiet_bind (m : M A) (k : A -> M B) :
  quiet p m -> (forall a, quiet p (k a)) -> quiet p (m ≫= k).
Proof.
  intros Hm Hk w. rewrite run_bind.
  specialize (Hm w). unfold trace_of in *.
  destruct (m w) as [[[a | e] w1] t1]; simpl in *; [| exact Hm].
  specialize (Hk a w1).
  destruct (k a w1) as [[r w2] t2]; simpl in *.
  rewrite existsb_app, Hm, Hk. reflexivity.
Qed.

Lemma quiet_try_except (m : M A) (h : Exn -> M A) :
  quiet p m -> (forall e, quiet p (h e)) -> quiet p (try_except m h).
Proof.
  intros Hm Hh w. unfold try_except.
  specialize (Hm w). unfold trace_of in *.
  destruct (m w) as [[[a | e] w1] t1]; simpl in *; [exact Hm |].
  specialize (Hh e w1).
  destruct (h e w1) as [[r w2] t2]; simpl in *.
  rewrite existsb_app, Hm, Hh. reflexivity.
Qed.

Lemma quiet_when (b : bool) (m : M unit) : quiet p m -> quiet p (when b m).
Proof. intros Hm. destruct b; [exact Hm | intros w; reflexivity]. Qed.

End Rules.

(** Walks through a computation rule by rule, splitting on every
    [match] and [if] it meets; [extra] is tried first at each step. *)
Ltac inv_walk_with extra :=
  repeat first
    [ extra
    | apply inv_ret | apply inv_raise | apply inv_emit
    | apply inv_get_self | apply inv_get_session
    | apply inv_bind; [| intros ?]
    | apply inv_try_except; [| intros ?]
    | apply inv_when
    | match goal with
      | |- inv _ (match ?x with _ => _ end) => destruct x
      end ].

Ltac inv_walk := inv_walk_with fail.

Ltac quiet_walk :=
  repeat first
    [ apply quiet_ret | apply quiet_raise
    | apply quiet_emit; reflexivity
    | apply quiet_get_self | apply quiet_get_session
    | apply quiet_modify_self | apply quiet_modify_session
    | apply quiet_modify_pending
    | apply quiet_bind; [| intros ?]
    | apply quiet_try_except; [| intros ?]
    | apply quiet_when
    | match goal with
      | |- quiet _ (match ?x with _ => _ end) => destruct x
      end ].

(** Runs the monad's plumbing, leaving the methods folded. *)
Ltac run_monad :=
  cbv [mbind M_bind mret M_ret get_self get_session emit raise try_except
       modify_self modify_session modify_pending when negb
       _show_keep_failed_dialog].

(** ** What [save] leaves alone *)

Section SaveFrame.

Variable E : Env.

Ltac unfold_save :=
  unfold save, copy, set_active, metadata_set, metadata_get,
    _update_spent_time, datastore_write.

Ltac keep_coordination :=
  unfold_save; inv_walk;
  try (apply inv_modify_self || apply inv_modify_pending);
  intros [self0 session0 pending0] Hkeep; try exact Hkeep;
  unfold with_activity, coordination, write_metadata in *;
  cbn [activity session ds_pending] in *;
  destruct (_jobject self0); exact Hkeep.

Lemma save_keeps_coordination (x : bool * bool * nat * ActivitySession) :
  inv (fun w => coordination w = x) (save E).
Proof. keep_coordination. Qed.

Lemma save_never_finalizes : quiet is_finalize (save E).
Proof. unfold_save. quiet_walk. Qed.

Lemma save_never_prompts : quiet is_keep_failed_prompt (save E).
Proof. unfold_save. quiet_walk. Qed.

Lemma save_never_reports (b : bool) : quiet (is_report b) (save E).
Proof. unfold_save. quiet_walk. Qed.

Lemma save_never_forwards (b : bool) : quiet (is_forward b) (save E).
Proof. unfold_save. quiet_walk. Qed.

End SaveFrame.

(** [list.remove] of an element that is not there would raise; the
    list is as it was. *)
Lemma list_remove_first_absent (x : nat) (l : list nat) :
  existsb (Nat.eqb x) l = false -> list_remove_first x l = l.
Proof.
  induction l as [| y l IH]; [reflexivity |].
  cbn [existsb list_remove_first]. rewrite (Nat.eqb_sym x y).
  destruct (Nat.eqb y x); cbn [orb]; [discriminate |].
  intros H. rewrite (IH H). reflexivity.
Qed.

(** ** Equations of [close] and [_complete_close] *)

Section CloseEquations.

Variable E : Env.

Lemma complete_close_finalizes (w : World) :
  finalized (trace_of (_complete_close E w)) = true.
Proof.
  unfold _complete_close. rewrite run_bind.
  change (emit EvDestroy w) with (Ok tt, w, [EvDestroy]).
  cbv beta iota.
  match goal with
  | |- context [match ?m w with _ => _ end] => destruct (m w) as [[r w2] t2]
  end.
  reflexivity.
Qed.

Lemma unregister_keeps_activity (n : nat) (a : Activity) :
  inv (fun w => activity w = a) (unregister n).
Proof.
  unfold unregister. inv_walk;
    try (apply inv_modify_session; intros w H; exact H).
Qed.

Lemma session_will_quit_keeps_activity (n : nat) (b : bool) (a : Activity) :
  inv (fun w => activity w = a) (session_will_quit n b).
Proof.
  unfold session_will_quit. inv_walk;
    try (apply inv_modify_session; intros w H; exact H).
Qed.

Lemma session_will_quit_never_finalizes (n : nat) (b : bool) :
  quiet is_finalize (session_will_quit n b).
Proof. unfold session_will_quit. quiet_walk. Qed.

(** [_complete_close] touches none of the three handshake flags. *)
Lemma complete_close_keeps_flags (x : bool * bool * bool) :
  inv (fun w => (_closing (activity w), _quit_requested (activity w),
                 _updating_jobject (activity w)) = x)
      (_complete_close E).
Proof.
  unfold _complete_close, _cleanup_jobject, unregister. inv_walk;
    try (first [apply inv_modify_self | apply inv_modify_session];
         intros w H; exact H).
Qed.

(** [_complete_close] releases the journal object and takes the activity
    off the session's list, whether [unregister] raises or not. *)
Lemma complete_close_completes (before w : World) :
  self_id (activity w) = self_id (activity before) ->
  _activities (session w) = _activities (session before) ->
  close_completed before (_complete_close E w).
Proof.
  intros Hid Hs. unfold close_completed. rewrite <- Hid, <- Hs.
  split; [apply complete_close_finalizes |].
  unfold _complete_close, _cleanup_jobject, unregister. run_monad.
  destruct (existsb (Nat.eqb (self_id (activity w)))
              (_activities (session w))) eqn:Hin;
    destruct (bool_decide (is_Some (shared_activity (activity w))));
    destruct (_jobject (activity w)) eqn:Hj;
    try destruct (_owns_file (activity w) && os_path_isfile E _);
    destruct (powerd_inhibit_dir_exists E && powerd_inhibit_file_exists E);
    cbn; rewrite ?Hin; cbn;
    try destruct (list_remove_first _ _) eqn:Hrest; cbn; rewrite ?Hj;
    (split; [reflexivity |
             first [reflexivity | assumption | symmetry; assumption
                   | symmetry; apply list_remove_first_absent; exact Hin
                   | rewrite <- Hrest; symmetry;
                     apply list_remove_first_absent; exact Hin]]).
Qed.

(** A close that is not vetoed, with no close in progress and saving
    not skipped: [save] runs from the world as [close] found it. *)
Lemma close_run (w : World) :
  can_close E (activity w) = true ->
  _closing (activity w) = false ->
  close E false w =
  match save E w with
  | (Ok _, w1, t1) =>
      let w2 := with_activity (set_closing true) w1 in
      if _updating_jobject (activity w1)
      then (Ok tt, w2, EvSetCursorWatch :: EvEmitClosing :: t1)
      else match _complete_close E w2 with
           | (r, w3, t3) =>
               (r, w3, EvSetCursorWatch :: EvEmitClosing :: t1 ++ t3)
           end
  | (Raise _, w1, t1) =>
      (Ok tt, w1,
       EvSetCursorWatch :: EvEmitClosing :: t1 ++
         [EvLog "Error saving activity object to datastore";
          EvAddAlert keep_failed_alert; EvReveal])
  end.
Proof.
  intros Hc Hcl. unfold close, _prepare_close. run_monad.
  rewrite Hc, Hcl.
  destruct (save E w) as [[[[] | e] w1] t1].
  - cbn [activity with_activity set_closing _updating_jobject app].
    destruct (_updating_jobject (activity w1)).
    + rewrite !app_nil_r. reflexivity.
    + destruct (_complete_close E _) as [[r w3] t3].
      rewrite !app_nil_r. reflexivity.
  - cbn [app]. rewrite !app_nil_r. reflexivity.
Qed.

(** The same with [skip_save=True]. *)
Lemma close_run_skip (w : World) :
  can_close E (activity w) = true ->
  _closing (activity w) = false ->
  close E true w =
  let w2 := with_activity (set_closing true) w in
  if _updating_jobject (activity w)
  then (Ok tt, w2, [EvSetCursorWatch; EvEmitClosing])
  else match _complete_close E w2 with
       | (r, w3, t3) => (r, w3, EvSetCursorWatch :: EvEmitClosing :: t3)
       end.
Proof.
  intros Hc Hcl. unfold close, _prepare_close. run_monad.
  rewrite Hc, Hcl.
  cbn [activity with_activity set_closing _updating_jobject app].
  destruct (_updating_jobject (activity w)).
  - reflexivity.
  - destruct (_complete_close E _) as [[r w3] t3]. reflexivity.
Qed.

End CloseEquations.

(** ** The session's negotiation *)

Lemma existsb_eqb_elem_of (a : nat) (l : list nat) :
  existsb (Nat.eqb a) l = true <-> a ∈ l.
Proof.
  rewrite existsb_exists, list_elem_of_In. split.
  - intros [x [Hin Heq]]. apply Nat.eqb_eq in Heq. subst x. exact Hin.
  - intros Hin. exists a. split; [exact Hin | apply Nat.eqb_refl].
Qed.

Lemma all_agreed_spec (activities agreed : list nat) :
  all_agreed activities agreed = true <->
  forall a, a ∈ activities -> a ∈ agreed.
Proof.
  induction activities as [| x rest IH]; simpl.
  - split; [| reflexivity]. intros _ a Ha. inversion Ha.
  - destruct (existsb (Nat.eqb x) agreed) eqn:Hx.
    + apply existsb_eqb_elem_of in Hx. rewrite IH. split.
      * intros H a Ha. apply elem_of_cons in Ha as [-> | Ha]; auto.
      * intros H a Ha. apply H. apply elem_of_cons. right. exact Ha.
    + split; [discriminate |]. intros H.
      assert (Hin : x ∈ agreed) by (apply H, elem_of_cons; left; reflexivity).
      apply existsb_eqb_elem_of in Hin. congruence.
Qed.

(** C10: [will_quit(activity, True)] adds the activity to the agreed
    list and forwards [True] to the XSMP client exactly when every
    registered activity is then in the agreed list, and never forwards
    [False]; [will_quit(activity, False)] empties the agreed list and
    forwards [False] at once. *)
Theorem will_quit_negotiation (act : nat) (w : World) :
  let agree := session_will_quit act true w in
  let refuse := session_will_quit act false w in
  _will_quit (session (world_of agree)) = _will_quit (session w) ++ [act] /\
  (forwarded true (trace_of agree) = true <->
   forall a, a ∈ _activities (session w) ->
             a ∈ _will_quit (session w) ++ [act]) /\
  forwarded false (trace_of agree) = false /\
  _will_quit (session (world_of refuse)) = [] /\
  trace_of refuse = [EvSessionWillQuit act false; EvXsmpWillQuit false].
Proof.
  cbv zeta. unfold session_will_quit. run_monad.
  cbn [with_session session _activities _will_quit].
  rewrite <- all_agreed_spec.
  destruct (all_agreed (_activities (session w)) (_will_quit (session w) ++ [act]));
    cbn; intuition congruence.
Qed.

Lemma will_quit_negotiation_witness :
  forwarded true
    (trace_of (session_will_quit 1 true shared_process_world)) = false /\
  forwarded true
    (trace_of (session_will_quit 2 true
       (world_of (session_will_quit 1 true shared_process_world)))) = true.
Proof.
  split.
  - destruct (will_quit_negotiation 1 shared_process_world)
      as (_ & Hiff & _).
    destruct (forwarded true _) eqn:Hfw; [| reflexivity].
    exfalso.
    destruct Hiff as [Hall _].
    specialize (Hall eq_refl 2%nat). simpl in Hall.
    assert (Hin : 2%nat ∈ [1%nat]) by (apply Hall; set_solver).
    set_solver.
  - destruct (will_quit_negotiation 2
                (world_of (session_will_quit 1 true shared_process_world)))
      as (_ & Hiff & _).
    apply Hiff. simpl. intros a Ha. exact Ha.
Defined.

(** ** Guards of [save] and [close] *)

(** C1: when [can_close()] answers false, [close()] returns at once:
    nothing is saved, no flag is set, the close is not finalized; the
    store is as it was and no call left the activity. *)
Theorem close_vetoed (E : Env) (skip_save : bool) (w : World) :
  can_close E (activity w) = false ->
  close E skip_save w = (Ok tt, w, []).
Proof.
  intros Hveto. unfold close. run_monad. rewrite Hveto. reflexivity.
Qed.

Lemma close_vetoed_witness :
  can_close vetoing_env (activity sample_world) = false /\
  close vetoing_env false sample_world = (Ok tt, sample_world, []).
Proof.
  split; [reflexivity |].
  apply (close_vetoed vetoing_env false sample_world). reflexivity.
Defined.

(** C9: without a journal object [save()] returns at once and without
    raising; it only logs that it cannot save: no datastore write, no
    flag and no metadata changes. *)
Theorem save_without_jobject (E : Env) (w : World) :
  _jobject (activity w) = None ->
  save E w = (Ok tt, w, [EvLog "Cannot save, no journal object."]).
Proof.
  intros Hnone. unfold save. run_monad. rewrite Hnone. reflexivity.
Qed.

Lemma save_without_jobject_witness :
  _jobject (activity bare_world) = None /\
  save sample_env bare_world =
    (Ok tt, bare_world, [EvLog "Cannot save, no journal object."]).
Proof.
  split; [reflexivity |].
  apply (save_without_jobject sample_env bare_world). reflexivity.
Defined.

(** C7: while [_updating_jobject] is set, [save()] returns at once: the
    whole store (metadata, file path, flags, writes in flight) is as it
    was, the call only logs, and neither [write_file] nor
    [datastore.write] is called. *)
Theorem save_while_updating (E : Env) (w : World) :
  _updating_jobject (activity w) = true ->
  result_of (save E w) = Ok tt /\
  world_of (save E w) = w /\
  forallb is_log (trace_of (save E w)) = true /\
  save_work (trace_of (save E w)) = false.
Proof.
  intros Hupd. unfold save. run_monad. rewrite Hupd.
  destruct (_jobject (activity w)); cbn; auto.
Qed.

Lemma save_while_updating_witness :
  _updating_jobject (activity saving_world) = true /\
  world_of (save sample_env saving_world) = saving_world /\
  save_work (trace_of (save sample_env saving_world)) = false.
Proof.
  split; [reflexivity |].
  destruct (save_while_updating sample_env saving_world) as (_ & Hw & _ & Ht);
    [reflexivity |].
  split; [exact Hw | exact Ht].
Defined.

(** ** [save] runs before [_closing] is set *)

Section Tracked.

Context {A B : Type}.
Variable J : Activity -> Prop.
Variable T : Event -> bool.

Lemma tracked_ret (a : A) : tracked J T (mret a : M A).
Proof. intros w H. split; [exact H | reflexivity]. Qed.

Lemma tracked_raise (e : Exn) : tracked J T (raise e : M A).
Proof. intros w H. split; [exact H | reflexivity]. Qed.

Lemma tracked_emit (e : Event) : T e = true -> tracked J T (emit e).
Proof. intros He w H. split; [exact H |]. simpl. rewrite He. reflexivity. Qed.

Lemma tracked_modify_self (f : Activity -> Activity) :
  (forall a, J a -> J (f a)) -> tracked J T (modify_self f).
Proof. intros Hf w H. split; [apply Hf, H | reflexivity]. Qed.

Lemma tracked_modify_pending (f : nat -> nat) : tracked J T (modify_pending f).
Proof. intros w H. split; [exact H | reflexivity]. Qed.

Lemma tracked_bind (m : M A) (k : A -> M B) :
  tracked J T m -> (forall a, tracked J T (k a)) -> tracked J T (m ≫= k).
Proof.
  intros Hm Hk w H. rewrite run_bind.
  destruct (Hm w H) as [Hw Ht]. unfold world_of, trace_of in *.
  destruct (m w) as [[[a | e] w1] t1]; simpl in *; [| auto].
  destruct (Hk a w1 Hw) as [Hw2 Ht2].
  destruct (k a w1) as [[r w2] t2]; simpl in *.
  rewrite forallb_app, Ht, Ht2. auto.
Qed.

(** After [a ← get_self] the continuation may use [J a]. *)
Lemma tracked_bind_self (k : Activity -> M B) :
  (forall a, J a -> tracked J T (k a)) -> tracked J T (get_self ≫= k).
Proof.
  intros Hk w H. rewrite run_bind.
  change (get_self w) with (Ok (activity w), w, @nil Event). cbv beta iota.
  destruct (Hk (activity w) H w H) as [Hw Ht].
  unfold world_of, trace_of in *.
  destruct (k (activity w) w) as [[r w2] t2]; simpl in *. auto.
Qed.

Lemma tracked_when (b : bool) (m : M unit) :
  tracked J T m -> tracked J T (when b m).
Proof.
  intros Hm. destruct b; [exact Hm |].
  intros w H. split; [exact H | reflexivity].
Qed.

End Tracked.

Lemma save_sees_closing_clear (E : Env) :
  tracked (fun a => _closing a = false) closing_clear_at_save (save E).
Proof.
  unfold save, metadata_set, metadata_get, _update_spent_time, datastore_write.
  repeat first
    [ apply tracked_ret | apply tracked_raise
    | apply tracked_modify_pending
    | apply tracked_bind_self; intros ? ?
    | apply tracked_bind; [| intros ?]
    | apply tracked_when
    | apply tracked_emit; first [reflexivity | simpl; congruence]
    | match goal with
      | |- tracked _ _ (match ?x with _ => _ end) => destruct x
      | H : _closing ?a = false |- tracked _ _ (emit (EvWriteFile ?a _)) =>
          apply tracked_emit; simpl; rewrite H; reflexivity
      | |- tracked _ _ (modify_self _) =>
          apply tracked_modify_self; intros self0 Hself; simpl;
          try destruct (_jobject self0); exact Hself
      end ].
Qed.

Lemma forallb_without_write_file (T : Event -> bool) (t : list Event) :
  (forall e, is_write_file e = false -> T e = true) ->
  existsb is_write_file t = false -> forallb T t = true.
Proof.
  intros HT. induction t as [| e t IH]; simpl; [reflexivity |].
  intros H. apply orb_false_elim in H as [He Ht].
  rewrite (HT e He), (IH Ht). reflexivity.
Qed.

Lemma complete_close_never_writes_file (E : Env) :
  quiet is_write_file (_complete_close E).
Proof. unfold _complete_close, _cleanup_jobject, unregister. quiet_walk. Qed.

Lemma save_keeps_closing (E : Env) (w : World) :
  _closing (activity (world_of (save E w))) = _closing (activity w).
Proof.
  pose proof (save_keeps_coordination E (coordination w) w eq_refl) as H.
  unfold coordination in H. congruence.
Qed.

Lemma save_keeps_quit_requested (E : Env) (w : World) :
  _quit_requested (activity (world_of (save E w))) =
  _quit_requested (activity w).
Proof.
  pose proof (save_keeps_coordination E (coordination w) w eq_refl) as H.
  unfold coordination in H. congruence.
Qed.

Lemma complete_close_keeps_closing (E : Env) (w : World) :
  _closing (activity (world_of (_complete_close E w))) = _closing (activity w).
Proof.
  pose proof (complete_close_keeps_flags E _ w eq_refl) as H.
  simpl in H. congruence.
Qed.

(** The counterexample to C2 as stated: in a close that is not vetoed,
    with no close in progress, [write_file] is called by [save] while
    [_closing] is still false. *)
Lemma closing_not_set_before_save :
  can_close sample_env (activity sample_world) = true /\
  _closing (activity sample_world) = false /\
  save_work (trace_of (close sample_env false sample_world)) = true /\
  closing_set_before_save (trace_of (close sample_env false sample_world))
    = false.
Proof. vm_compute. repeat split. Qed.

(** C2, amended: in a close that is not vetoed, with no close in
    progress and saving not skipped, [save()] is attempted first, from
    the store as [close()] found it, so that every [write_file] call
    sees [_closing] still false; the flag is set afterwards, and only if
    [save()] did not raise. *)
Theorem close_saves_then_marks (E : Env) (w : World) :
  can_close E (activity w) = true ->
  _closing (activity w) = false ->
  let after := close E false w in
  (exists rest,
     trace_of after =
       EvSetCursorWatch :: EvEmitClosing :: trace_of (save E w) ++ rest) /\
  forallb closing_clear_at_save (trace_of after) = true /\
  _closing (activity (world_of after)) = is_ok (result_of (save E w)).
Proof.
  intros Hc Hcl after. subst after. rewrite (close_run E w Hc Hcl).
  destruct (save_sees_closing_clear E w Hcl) as [_ Hsees].
  pose proof (save_keeps_closing E w) as Hkeep.
  unfold world_of, trace_of, result_of in *.
  destruct (save E w) as [[[[] | e] w1] t1]; simpl in *.
  - destruct (_updating_jobject (activity w1)) eqn:Hupd; simpl.
    + split; [exists []; rewrite app_nil_r; reflexivity |]. auto.
    + pose proof (complete_close_keeps_closing E
                    (with_activity (set_closing true) w1)) as Hcc.
      pose proof (complete_close_never_writes_file E
                    (with_activity (set_closing true) w1)) as Hq.
      unfold world_of, trace_of in *.
      destruct (_complete_close E _) as [[r w3] t3]; simpl in *.
      split; [exists t3; reflexivity |].
      split; [| exact Hcc].
      rewrite forallb_app, Hsees. simpl.
      apply forallb_without_write_file; [| exact Hq].
      intros [] He; try reflexivity; discriminate.
  - split; [eexists; reflexivity |].
    split; [| congruence].
    rewrite forallb_app, Hsees. reflexivity.
Qed.

Lemma close_saves_then_marks_witness :
  can_close sample_env (activity sample_world) = true /\
  _closing (activity sample_world) = false /\
  forallb closing_clear_at_save
    (trace_of (close sample_env false sample_world)) = true /\
  _closing (activity (world_of (close sample_env false sample_world))) = true.
Proof.
  split; [reflexivity |]. split; [reflexivity |].
  destruct (close_saves_then_marks sample_env sample_world)
    as (_ & Hsees & Hflag); [reflexivity | reflexivity |].
  split; [exact Hsees |]. rewrite Hflag. reflexivity.
Defined.

(** ** The outcome of [close] *)

Lemma finalized_app (t1 t2 : list Event) :
  finalized (t1 ++ t2) = finalized t1 || finalized t2.
Proof. apply existsb_app. Qed.

Lemma session_will_quit_run (n : nat) (will_quit : bool) (w : World) :
  session_will_quit n will_quit w =
  if will_quit then
    (Ok tt,
     with_session (fun s => mkSession (_activities s) (_will_quit s ++ [n])) w,
     EvSessionWillQuit n true ::
       (if all_agreed (_activities (session w)) (_will_quit (session w) ++ [n])
        then [EvXsmpWillQuit true] else []))
  else
    (Ok tt, with_session (fun s => mkSession (_activities s) []) w,
     [EvSessionWillQuit n false; EvXsmpWillQuit false]).
Proof.
  unfold session_will_quit. run_monad.
  cbn [with_session session _activities _will_quit].
  destruct will_quit; [| reflexivity].
  destruct (all_agreed _ _); reflexivity.
Qed.

(** The counterexample to C3 as stated: after a quit that the user
    refused ([save()] failed, [Don't stop]), [close()] saves
    asynchronously and returns without finalizing, and the reply of the
    datastore does not complete the close either: it only tells the
    session that the activity will quit. *)
Lemma close_not_completed_by_reply :
  let w := refused_quit_world in
  let after := close sample_env false w in
  reachable sample_world w /\
  can_close sample_env (activity w) = true /\
  _closing (activity w) = false /\
  result_of (save sample_env w) = Ok tt /\
  _updating_jobject (activity (world_of (save sample_env w))) = true /\
  finalized (trace_of after) = false /\
  finalized (trace_of (datastore_reply sample_env (world_of after))) = false.
Proof.
  cbv zeta. split.
  - unfold refused_quit_world.
    eapply reachable_step;
      [eapply reachable_step; [apply reachable_start |] |];
      apply step_perform; reflexivity.
  - vm_compute. repeat split.
Qed.

(** C3, amended: in a close that is not vetoed and whose [save()]
    returns: if [_updating_jobject] is then false, the close is
    completed within the same call; otherwise [close()] returns without
    finalizing, leaving [_closing] set on top of what [save()] left.
    The reply of the datastore then completes the close if no quit was
    requested; if one was, the reply only tells the session that the
    activity will quit, [_closing] stays set, and it is the quit signal
    of the session that completes the close. *)
Theorem close_after_save (E : Env) (w : World) :
  can_close E (activity w) = true ->
  _closing (activity w) = false ->
  result_of (save E w) = Ok tt ->
  let saved := world_of (save E w) in
  let after := close E false w in
  let replied := datastore_reply E (world_of after) in
  (_updating_jobject (activity saved) = false ->
     close_completed w after) /\
  (_updating_jobject (activity saved) = true ->
     result_of after = Ok tt /\
     finalized (trace_of after) = false /\
     world_of after = with_activity (set_closing true) saved /\
     (_quit_requested (activity w) = false ->
        close_completed w replied) /\
     (_quit_requested (activity w) = true ->
        finalized (trace_of replied) = false /\
        reported true (trace_of replied) = true /\
        _closing (activity (world_of replied)) = true /\
        _updating_jobject (activity (world_of replied)) = false /\
        close_completed w (__session_quit_cb E (world_of replied)))).
Proof.
  intros Hc Hcl Hok saved after replied. subst saved after replied.
  rewrite (close_run E w Hc Hcl).
  pose proof (save_never_finalizes E w) as Hquiet.
  pose proof (save_keeps_coordination E (coordination w) w eq_refl) as Hco.
  unfold coordination in Hco. injection Hco as Hcl1 Hq1 Hid1 Hs1.
  unfold world_of, trace_of, result_of in Hquiet, Hcl1, Hq1, Hid1, Hs1, Hok |- *.
  destruct (save E w) as [[[[] | e] w1] t1]; cbn [fst snd] in *;
    [| discriminate].
  split; intros Hupd; rewrite Hupd.
  - pose proof (complete_close_completes E w
                  (with_activity (set_closing true) w1)) as Hdone.
    unfold close_completed, world_of, trace_of in Hdone |- *.
    destruct (_complete_close E (with_activity (set_closing true) w1))
      as [[r w3] t3].
    cbn [fst snd] in *.
    destruct Hdone as (Hfin & Hj & Hact);
      [exact Hid1 | cbn; congruence |].
    repeat split; [| exact Hj | exact Hact].
    change (EvSetCursorWatch :: EvEmitClosing :: t1 ++ t3)
      with ([EvSetCursorWatch; EvEmitClosing] ++ t1 ++ t3).
    rewrite !finalized_app, Hfin, !orb_true_r. reflexivity.
  - cbn [fst snd].
    split; [reflexivity |]. split; [exact Hquiet |]. split; [reflexivity |].
    unfold datastore_reply, __save_cb. run_monad.
    cbn [activity with_activity with_pending set_updating_jobject
         set_closing _quit_requested _closing self_id app fst snd].
    split; intros Hq; rewrite Hq1, Hq.
    + match goal with
      | |- context [_complete_close E ?w'] =>
          pose proof (complete_close_completes E w w') as Hdone
      end.
      unfold close_completed, world_of, trace_of in Hdone |- *.
      destruct (_complete_close E _) as [[r w3] t3].
      cbn [fst snd app] in *. apply Hdone; [exact Hid1 | cbn; congruence].
    + rewrite session_will_quit_run.
      destruct (all_agreed _ _);
        (split; [reflexivity |]; split; [reflexivity |];
         split; [reflexivity |]; split; [reflexivity |];
         apply complete_close_completes; [exact Hid1 | cbn; congruence]).
Qed.

Lemma close_after_save_witness :
  close_completed fresh_world (close sample_env false fresh_world) /\
  (finalized (trace_of (close sample_env false sample_world)) = false /\
   close_completed sample_world
     (datastore_reply sample_env
        (world_of (close sample_env false sample_world)))) /\
  (finalized (trace_of (close sample_env false refused_quit_world)) = false /\
   finalized (trace_of (datastore_reply sample_env
                (world_of (close sample_env false refused_quit_world))))
     = false).
Proof.
  split; [| split].
  - destruct (close_after_save sample_env fresh_world) as [Hsync _];
      [reflexivity | reflexivity | reflexivity |].
    apply Hsync. reflexivity.
  - destruct (close_after_save sample_env sample_world) as [_ Hasync];
      [reflexivity | reflexivity | reflexivity |].
    destruct Hasync as (_ & Hnot & _ & Hlater & _); [reflexivity |].
    split; [exact Hnot | apply Hlater; reflexivity].
  - destruct (close_after_save sample_env refused_quit_world) as [_ Hasync];
      [reflexivity | reflexivity | reflexivity |].
    destruct Hasync as (_ & Hnot & _ & _ & Hquit); [reflexivity |].
    destruct Hquit as (Hreply & _); [reflexivity |].
    split; [exact Hnot | exact Hreply].
Defined.

(** C4: in a close whose [save()] raises, [close()] itself returns
    normally, the recovery prompt is shown, [_complete_close] does not
    run and [_closing] is left false: [close()] changes nothing beyond
    what the failed [save()] had already done. *)
Theorem close_save_error (E : Env) (w : World) (e : Exn) :
  can_close E (activity w) = true ->
  _closing (activity w) = false ->
  result_of (save E w) = Raise e ->
  let after := close E false w in
  result_of after = Ok tt /\
  prompt_shown (trace_of after) = true /\
  finalized (trace_of after) = false /\
  _closing (activity (world_of after)) = false /\
  world_of after = world_of (save E w).
Proof.
  intros Hc Hcl Hraise after. subst after.
  rewrite (close_run E w Hc Hcl).
  pose proof (save_never_finalizes E w) as Hquiet.
  pose proof (save_keeps_closing E w) as Hkeep.
  unfold world_of, trace_of, result_of in *.
  destruct (save E w) as [[[[] | e'] w1] t1]; simpl in *; [discriminate |].
  repeat split.
  - unfold prompt_shown. rewrite existsb_app. simpl. apply orb_true_r.
  - unfold finalized. rewrite existsb_app, Hquiet. reflexivity.
  - congruence.
Qed.

Lemma close_save_error_witness :
  result_of (save sample_env broken_world) = Raise (KeyError "spent-times") /\
  prompt_shown (trace_of (close sample_env false broken_world)) = true /\
  finalized (trace_of (close sample_env false broken_world)) = false /\
  _closing (activity (world_of (close sample_env false broken_world))) = false.
Proof.
  split; [reflexivity |].
  destruct (close_save_error sample_env broken_world (KeyError "spent-times"))
    as (_ & Hprompt & Hfin & Hflag & _);
    [reflexivity | reflexivity | reflexivity |].
  split; [exact Hprompt |]. split; [exact Hfin | exact Hflag].
Defined.

(** ** Answers to the session *)

Lemma prepare_close_run (E : Env) (w : World) :
  _prepare_close E false w =
  match save E w with
  | (Ok _, w1, t1) => (Ok true, with_activity (set_closing true) w1, t1)
  | (Raise _, w1, t1) =>
      (Ok false, w1,
       t1 ++ [EvLog "Error saving activity object to datastore";
              EvAddAlert keep_failed_alert; EvReveal])
  end.
Proof.
  unfold _prepare_close. run_monad.
  destruct (save E w) as [[[[] | e] w1] t1]; cbn [app];
    rewrite ?app_nil_r; reflexivity.
Qed.

Lemma reported_app (b : bool) (t1 t2 : list Event) :
  reported b (t1 ++ t2) = reported b t1 || reported b t2.
Proof. apply existsb_app. Qed.

(** C5: when the session asks to quit, [_quit_requested] is set, then
    [save()] is attempted as in [close()] (with the prompt on failure);
    the activity tells the session that it will quit exactly when
    [save()] returned and no asynchronous write is pending afterwards,
    it never answers no from this callback, and it gives no answer if
    the callback ends with [_updating_jobject] set. *)
Theorem session_quit_requested (E : Env) (w : World) :
  let asked := with_activity (set_quit_requested true) w in
  let after := __session_quit_requested_cb E w in
  _quit_requested (activity (world_of after)) = true /\
  (exists rest, trace_of after = trace_of (save E asked) ++ rest) /\
  prompt_shown (trace_of after) = negb (is_ok (result_of (save E asked))) /\
  reported true (trace_of after) =
    is_ok (result_of (save E asked)) &&
    negb (_updating_jobject (activity (world_of (save E asked)))) /\
  reported false (trace_of after) = false /\
  (_updating_jobject (activity (world_of after)) = true ->
   reported true (trace_of after) = false).
Proof.
  cbv zeta. unfold __session_quit_requested_cb.
  rewrite run_bind. change (modify_self (set_quit_requested true) w)
    with (Ok tt, with_activity (set_quit_requested true) w, @nil Event).
  cbv beta iota. rewrite run_bind, prepare_close_run.
  set (asked := with_activity (set_quit_requested true) w).
  pose proof (save_keeps_quit_requested E asked) as Hquit.
  pose proof (save_never_reports E true asked) as Hrt.
  pose proof (save_never_reports E false asked) as Hrf.
  pose proof (save_never_prompts E asked) as Hpr.
  unfold world_of, trace_of, result_of in *.
  destruct (save E asked) as [[[[] | e] w1] t1]; simpl in *.
  - run_monad. cbn [activity with_activity set_closing _updating_jobject andb].
    destruct (_updating_jobject (activity w1)) eqn:Hupd; simpl.
    + rewrite !app_nil_r. unfold reported, prompt_shown.
      repeat split; eauto. exists []. rewrite app_nil_r. reflexivity.
    + rewrite session_will_quit_run. simpl.
      unfold reported, prompt_shown. rewrite !existsb_app, Hrt, Hrf, Hpr.
      simpl. rewrite Hupd.
      destruct (all_agreed _ _); simpl;
        repeat split; eauto; discriminate.
  - run_monad. simpl. rewrite !app_nil_r.
    unfold reported, prompt_shown. rewrite !existsb_app, Hrt, Hrf, Hpr.
    simpl. repeat split; eauto.
Qed.

Lemma session_quit_requested_witness :
  reported true (trace_of (__session_quit_requested_cb sample_env fresh_world))
    = true /\
  _updating_jobject
    (activity (world_of (__session_quit_requested_cb sample_env sample_world)))
    = true /\
  reported true (trace_of (__session_quit_requested_cb sample_env sample_world))
    = false.
Proof.
  split.
  - destruct (session_quit_requested sample_env fresh_world)
      as (_ & _ & _ & Hyes & _).
    rewrite Hyes. reflexivity.
  - split; [reflexivity |].
    destruct (session_quit_requested sample_env sample_world)
      as (_ & _ & _ & _ & _ & Hpending).
    apply Hpending. reflexivity.
Defined.

(** ** The answer of the datastore *)

Lemma complete_close_keeps_updating (E : Env) (w : World) :
  _updating_jobject (activity (world_of (_complete_close E w))) =
  _updating_jobject (activity w).
Proof.
  pose proof (complete_close_keeps_flags E _ w eq_refl) as H.
  simpl in H. congruence.
Qed.

(** The counterexample to C6 as stated: after a quit request a close is
    pending ([_closing] is set), yet the successful reply does not
    finalize it. *)
Lemma reply_does_not_finalize_when_quitting :
  _quit_requested (activity quitting_world) = true /\
  _closing (activity quitting_world) = true /\
  _updating_jobject (activity quitting_world) = true /\
  finalized (trace_of (__save_cb sample_env quitting_world)) = false.
Proof. vm_compute. repeat split. Qed.

(** C6, amended: both callbacks clear [_updating_jobject].  On success,
    if a quit was requested the activity tells the session that it will
    quit and the callback does not finalize the close; if no quit was
    requested and a close is pending, the close is finalized.  On
    failure, if a quit was requested the activity tells the session that
    it will not quit and, if a close is pending, the recovery prompt is
    shown, the close is not finalized and [_closing] is cleared; the
    callback then raises [RuntimeError]. *)
Theorem save_callbacks (E : Env) (w : World) :
  let replied := __save_cb E w in
  let failed := __save_error_cb w in
  _updating_jobject (activity (world_of replied)) = false /\
  _updating_jobject (activity (world_of failed)) = false /\
  (_quit_requested (activity w) = true ->
     reported true (trace_of replied) = true /\
     finalized (trace_of replied) = false) /\
  (_quit_requested (activity w) = false -> _closing (activity w) = true ->
     finalized (trace_of replied) = true) /\
  reported false (trace_of failed) = _quit_requested (activity w) /\
  prompt_shown (trace_of failed) = _closing (activity w) /\
  finalized (trace_of failed) = false /\
  _closing (activity (world_of failed)) = false /\
  result_of failed =
    Raise (RuntimeError "Error saving activity object to datastore").
Proof.
  cbv zeta. unfold __save_cb, __save_error_cb. run_monad.
  cbn [activity with_activity set_updating_jobject _quit_requested _closing
       self_id app].
  set (w0 := with_activity (set_updating_jobject false) w).
  pose proof (complete_close_keeps_updating E w0) as Hupd.
  pose proof (complete_close_finalizes E w0) as Hfin.
  unfold world_of, trace_of in Hupd, Hfin.
  destruct (_quit_requested (activity w)) eqn:Hq;
    destruct (_closing (activity w)) eqn:Hcl;
    rewrite ?session_will_quit_run;
    try destruct (all_agreed _ _);
    try destruct (_complete_close E w0) as [[r w3] t3];
    cbn in *; repeat split; auto; try discriminate.
Qed.

Lemma save_callbacks_witness :
  reported true (trace_of (__save_cb sample_env quitting_world)) = true /\
  finalized (trace_of (__save_cb sample_env
     (world_of (close sample_env false sample_world)))) = true /\
  prompt_shown (trace_of (__save_error_cb
     (world_of (close sample_env false sample_world)))) = true.
Proof.
  split.
  - destruct (save_callbacks sample_env quitting_world)
      as (_ & _ & Hquit & _).
    apply Hquit. reflexivity.
  - destruct (save_callbacks sample_env
                (world_of (close sample_env false sample_world)))
      as (_ & _ & _ & Hclose & _ & Hprompt & _).
    split; [apply Hclose; reflexivity | rewrite Hprompt; reflexivity].
Defined.

(** ** The keep-failed dialog *)

Lemma close_skip_never_saves (E : Env) :
  quiet (fun e => is_write_file e || is_datastore_write e) (close E true).
Proof.
  unfold close, _prepare_close. cbn [negb].
  unfold _complete_close, _cleanup_jobject, unregister. quiet_walk.
Qed.

(** C8: the alert offers two buttons, [Don't stop] (cancel) and
    [Stop anyway] (ok).  [Stop anyway] calls [close(skip_save=True)]:
    neither [write_file] nor [datastore.write] is called.  [Don't stop]
    leaves the activity and the list of registered activities as they
    were, finalizes nothing, and tells the session that the activity
    will not quit exactly when a quit was requested. *)
Theorem keep_failed_dialog (E : Env) (w : World) :
  let stop := _keep_failed_dialog_response_cb E RESPONSE_OK w in
  let stay := _keep_failed_dialog_response_cb E RESPONSE_CANCEL w in
  alert_buttons keep_failed_alert =
    [ (RESPONSE_CANCEL, "Don't stop", "dialog-cancel");
      (RESPONSE_OK, "Stop anyway", "dialog-ok") ] /\
  _show_keep_failed_dialog w =
    (Ok tt, w, [EvAddAlert keep_failed_alert; EvReveal]) /\
  (exists rest,
     trace_of stop = EvRemoveAlert :: trace_of (close E true w) ++ rest) /\
  save_work (trace_of stop) = false /\
  activity (world_of stay) = activity w /\
  _activities (session (world_of stay)) = _activities (session w) /\
  finalized (trace_of stay) = false /\
  reported true (trace_of stay) = false /\
  reported false (trace_of stay) = _quit_requested (activity w) /\
  forwarded false (trace_of stay) = _quit_requested (activity w).
Proof.
  cbv zeta. split; [reflexivity |]. split; [reflexivity |].
  unfold _keep_failed_dialog_response_cb.
  change (RESPONSE_CANCEL =? RESPONSE_OK) with false.
  change (RESPONSE_OK =? RESPONSE_OK) with true. cbv iota.
  split; [| split].
  - run_monad. pose proof (close_skip_never_saves E w) as Hq.
    destruct (close E true w) as [[[[] | e] w1] t1]; simpl.
    + destruct (_quit_requested (activity w1)).
      * rewrite session_will_quit_run. eexists. reflexivity.
      * exists []. rewrite !app_nil_r. reflexivity.
    + exists []. rewrite app_nil_r. reflexivity.
  - run_monad. pose proof (close_skip_never_saves E w) as Hq.
    unfold trace_of in Hq. unfold save_work.
    destruct (close E true w) as [[[[] | e] w1] t1]; simpl in *.
    + destruct (_quit_requested (activity w1)).
      * rewrite session_will_quit_run. simpl.
        rewrite !existsb_app, Hq.
        destruct (all_agreed _ _); reflexivity.
      * rewrite !app_nil_r. exact Hq.
    + exact Hq.
  - run_monad. destruct (_quit_requested (activity w)) eqn:Hq.
    + rewrite session_will_quit_run. cbn. repeat split.
    + cbn. repeat split.
Qed.

(** ** Saves never overlap *)

Section Hoare.

Context {A B : Type}.
Variables P Q : World -> Prop.
Hypothesis P_Q : forall w, P w -> Q w.

Lemma hoare_ret (a : A) : hoare P (mret a : M A) Q.
Proof. intros w H. apply P_Q, H. Qed.

Lemma hoare_raise (e : Exn) : hoare P (raise e : M A) Q.
Proof. intros w H. apply P_Q, H. Qed.

Lemma hoare_emit (e : Event) : hoare P (emit e) Q.
Proof. intros w H. apply P_Q, H. Qed.

(** A step that keeps [P], followed by a continuation from [P] to [Q]. *)
Lemma hoare_bind (m : M A) (k : A -> M B) :
  inv P m -> (forall a, hoare P (k a) Q) -> hoare P (m ≫= k) Q.
Proof.
  intros Hm Hk w H. rewrite run_bind.
  specialize (Hm w H). unfold world_of in *.
  destruct (m w) as [[[a | e] w1] t1]; simpl in *; [| apply P_Q, Hm].
  specialize (Hk a w1 Hm).
  destruct (k a w1) as [[r w2] t2]; simpl in *. exact Hk.
Qed.

End Hoare.

Lemma idle_consistent (w : World) : idle w -> consistent w.
Proof. intros [Hp Hu]. unfold consistent. rewrite Hp. split; [lia | auto]. Qed.

(** The guard of [save]: with [_updating_jobject] set the store is not
    touched. *)
Lemma save_guarded (E : Env) (w : World) :
  _updating_jobject (activity w) = true -> world_of (save E w) = w.
Proof.
  intros Hupd. unfold save. run_monad. rewrite Hupd.
  destruct (_jobject (activity w)); reflexivity.
Qed.

Ltac keep_idle :=
  solve [ unfold metadata_set, metadata_get, _update_spent_time; inv_walk;
          try (apply inv_modify_self; intros [self0 session0 pending0] Hidle;
               unfold idle, with_activity, write_metadata in *;
               cbn [activity session ds_pending] in *;
               try destruct (_jobject self0); exact Hidle) ].

(** Past its guard, [save] issues at most one asynchronous write, and
    sets [_updating_jobject] before it does. *)
Lemma save_from_idle (E : Env) : hoare idle (save E) consistent.
Proof.
  unfold save.
  repeat first
    [ apply (hoare_ret idle consistent idle_consistent)
    | apply (hoare_raise idle consistent idle_consistent)
    | apply (hoare_emit idle consistent idle_consistent)
    | apply (hoare_bind idle consistent idle_consistent); [keep_idle | intros ?]
    | match goal with
      | |- hoare _ (match ?x with _ => _ end) _ => destruct x
      end ];
    intros [self0 session0 pending0] [Hp Hu];
    unfold datastore_write; run_monad;
    cbn [activity session ds_pending] in *; subst pending0;
    destruct (datastore_write_raises E _);
    unfold consistent; cbn; split; first [lia | congruence | auto].
Qed.

Lemma save_consistent (E : Env) : inv consistent (save E).
Proof.
  intros w Hc.
  destruct (_updating_jobject (activity w)) eqn:Hupd.
  - rewrite (save_guarded E w Hupd). exact Hc.
  - apply save_from_idle. split; [apply Hc, Hupd | exact Hupd].
Qed.

Ltac keep_field I :=
  first [apply inv_modify_self | apply inv_modify_session];
  intros [self0 session0 pending0] Hkeep;
  unfold I, with_activity, with_session, write_metadata in *;
  cbn [activity session ds_pending] in *;
  try destruct (_jobject self0); exact Hkeep.

Ltac unfold_methods :=
  unfold close, copy, set_active, _prepare_close, _complete_close,
    _cleanup_jobject, unregister, session_will_quit,
    _show_keep_failed_dialog, _update_spent_time.

Section Consistency.

Variable E : Env.

Ltac keep_consistent :=
  unfold_methods; inv_walk_with ltac:(apply save_consistent);
  try keep_field consistent.

Lemma close_consistent (skip_save : bool) : inv consistent (close E skip_save).
Proof. keep_consistent. Qed.

Lemma copy_consistent : inv consistent (copy E).
Proof. keep_consistent. Qed.

Lemma set_active_consistent (active : bool) :
  inv consistent (set_active E active).
Proof. keep_consistent. Qed.

Lemma session_quit_requested_consistent :
  inv consistent (__session_quit_requested_cb E).
Proof. unfold __session_quit_requested_cb. keep_consistent. Qed.

Lemma session_quit_consistent : inv consistent (__session_quit_cb E).
Proof. unfold __session_quit_cb. keep_consistent. Qed.

Lemma dialog_response_consistent (response_id : Z) :
  inv consistent (_keep_failed_dialog_response_cb E response_id).
Proof. unfold _keep_failed_dialog_response_cb. keep_consistent. Qed.

Lemma save_cb_settled : inv settled (__save_cb E).
Proof.
  unfold __save_cb. unfold_methods. inv_walk; try keep_field settled.
Qed.

Lemma save_error_cb_settled : inv settled __save_error_cb.
Proof.
  unfold __save_error_cb. unfold_methods. inv_walk; try keep_field settled.
Qed.

Lemma settled_consistent (w : World) : settled w -> consistent w.
Proof. intros H. unfold settled, consistent in *. rewrite H. auto. Qed.

Lemma answer_settles (w : World) :
  consistent w -> enabled DatastoreReply w = true ->
  settled (with_pending Nat.pred w).
Proof.
  intros [Hle _] Hen. unfold settled. simpl in *.
  apply negb_true_iff, Nat.eqb_neq in Hen. lia.
Qed.

Lemma perform_consistent (act : Action) (w : World) :
  enabled act w = true -> consistent w ->
  consistent (world_of (perform E act w)).
Proof.
  intros Hen Hc. destruct act; simpl.
  - apply close_consistent, Hc.
  - apply save_consistent, Hc.
  - apply copy_consistent, Hc.
  - apply set_active_consistent, Hc.
  - apply session_quit_requested_consistent, Hc.
  - apply session_quit_consistent, Hc.
  - apply dialog_response_consistent, Hc.
  - apply settled_consistent. unfold datastore_reply. rewrite run_bind.
    pose proof (save_cb_settled (with_pending Nat.pred w)
                  (answer_settles w Hc Hen)) as Hs.
    unfold world_of in *. simpl.
    destruct (__save_cb E _) as [[r w2] t2]. exact Hs.
  - apply settled_consistent. unfold datastore_failure. rewrite run_bind.
    pose proof (save_error_cb_settled (with_pending Nat.pred w)
                  (answer_settles w Hc Hen)) as Hs.
    unfold world_of in *. simpl.
    destruct (__save_error_cb _) as [[r w2] t2]. exact Hs.
Qed.

End Consistency.

Lemma step_consistent (w w' : World) :
  step w w' -> consistent w -> consistent w'.
Proof.
  intros Hstep Hc. destruct Hstep as [E act w Hen].
  apply perform_consistent; assumption.
Qed.

(** X1: however the main loop runs, at most one asynchronous datastore
    write of the activity is in flight: saves never overlap. *)
Theorem saves_never_overlap (w0 w : World) :
  consistent w0 -> reachable w0 w -> (ds_pending w <= 1)%nat.
Proof.
  intros H0 Hreach.
  assert (Hc : consistent w).
  { induction Hreach as [| w w' _ IH Hstep]; [exact H0 |].
    exact (step_consistent w w' Hstep IH). }
  apply Hc.
Qed.
(** ** [set_last_value] and the runtime's [split] *)

Lemma split_go_nonempty (sep : string) (s : string) :
  forall k cur, split_go sep k cur s <> [].
Proof.
  induction s as [| c s IH]; intros k cur.
  - simpl. intros H. discriminate H.
  - cbn [split_go]. destruct k; [| apply IH].
    destruct (String.prefix sep (String c s)); [| apply IH].
    intros H. discriminate H.
Qed.

Lemma concat_cons_nonempty (sep x : string) (l : list string) :
  l <> [] -> String.concat sep (x :: l) = x +:+ sep +:+ String.concat sep l.
Proof. destruct l; [congruence | reflexivity]. Qed.

Lemma append_cons (x : ascii) (a b : string) :
  String x a +:+ b = String x (a +:+ b).
Proof. reflexivity. Qed.

Lemma append_assoc (a b c : string) : (a +:+ b) +:+ c = a +:+ (b +:+ c).
Proof.
  induction a as [| x a IH]; [reflexivity |].
  rewrite !append_cons, IH. reflexivity.
Qed.

Lemma append_empty_r (a : string) : a +:+ "" = a.
Proof.
  induction a as [| x a IH]; [reflexivity |].
  rewrite append_cons, IH. reflexivity.
Qed.

Lemma prefix_length (p s : string) :
  String.prefix p s = true -> (String.length p <= String.length s)%nat.
Proof.
  revert s. induction p as [| a p IH]; intros s H; [simpl; lia |].
  destruct s as [| b s]; simpl in H; [discriminate H |].
  destruct (ascii_dec a b); [| discriminate H].
  apply IH in H. simpl. lia.
Qed.

Lemma prefix_drop (p s : string) :
  String.prefix p s = true -> p +:+ drop_chars (String.length p) s = s.
Proof.
  revert s. induction p as [| a p IH]; intros s H; [reflexivity |].
  destruct s as [| b s]; simpl in H; [discriminate H |].
  destruct (ascii_dec a b) as [-> |]; [| discriminate H].
  cbn [String.length drop_chars]. rewrite append_cons, (IH s H). reflexivity.
Qed.

(** [sep.join(s.split(sep)) == s]. *)
Lemma join_split_go (sep : string) :
  sep <> "" ->
  forall s k cur, (k <= String.length s)%nat ->
    String.concat sep (split_go sep k cur s) = cur +:+ drop_chars k s.
Proof.
  intros Hsep. induction s as [| c s IH]; intros k cur Hk.
  - simpl in Hk. assert (k = O) by lia. subst k. simpl.
    rewrite append_empty_r. reflexivity.
  - destruct k as [| k].
    + cbn [split_go drop_chars].
      destruct (String.prefix sep (String c s)) eqn:Hp.
      * destruct sep as [| a sep]; [congruence |].
        pose proof (prefix_length _ _ Hp) as Hlen.
        pose proof (prefix_drop _ _ Hp) as Hdrop.
        cbn [String.length Nat.pred drop_chars] in *.
        rewrite concat_cons_nonempty by apply split_go_nonempty.
        rewrite IH by lia. change ("" +:+ ?x) with x. rewrite Hdrop. reflexivity.
      * rewrite IH by lia. cbn [drop_chars].
        rewrite append_assoc. reflexivity.
    + cbn [split_go drop_chars]. apply IH. simpl in Hk. lia.
Qed.

Lemma join_split (sep s : string) :
  sep <> "" -> String.concat sep (split sep s) = s.
Proof. intros Hsep. unfold split. rewrite join_split_go by (auto; lia). reflexivity. Qed.

Lemma prefix_cons (a b : ascii) (p s : string) :
  String.prefix (String a p) (String b s) = Ascii.eqb a b && String.prefix p s.
Proof.
  simpl. destruct (ascii_dec a b) as [-> | Hne].
  - rewrite Ascii.eqb_refl. reflexivity.
  - apply Ascii.eqb_neq in Hne. rewrite Hne. reflexivity.
Qed.

Lemma prefix_empty (s : string) : String.prefix "" s = true.
Proof. destruct s; reflexivity. Qed.

Lemma prefix_append (p s : string) : String.prefix p (p +:+ s) = true.
Proof.
  induction p as [| a p IH]; [apply prefix_empty |].
  rewrite append_cons, prefix_cons, Ascii.eqb_refl, IH. reflexivity.
Qed.

Lemma contains_prefix (sep s : string) :
  String.prefix sep s = true -> contains sep s = true.
Proof. intros H. destruct s; cbn [contains]; rewrite H; reflexivity. Qed.

Lemma contains_append (sep a s : string) :
  contains sep (a +:+ sep +:+ s) = true.
Proof.
  induction a as [| x a IH].
  - change ("" +:+ ?y) with y. apply contains_prefix, prefix_append.
  - rewrite append_cons. cbn [contains]. rewrite IH.
    destruct (String.prefix sep _); reflexivity.
Qed.

(** A string without the separator is a single piece. *)
Lemma split_go_without_sep (sep s : string) :
  contains sep s = false ->
  forall cur, split_go sep O cur s = [cur +:+ s].
Proof.
  induction s as [| c s IH]; intros Hs cur.
  - simpl. rewrite append_empty_r. reflexivity.
  - cbn [contains] in Hs. cbn [split_go].
    destruct (String.prefix sep (String c s)); [discriminate Hs |].
    rewrite (IH Hs), append_assoc. reflexivity.
Qed.

(** Appending [", "] and one more entry adds one piece: no separator
    can straddle the seam. *)
Lemma split_go_snoc (last : string) :
  contains ", " last = false ->
  forall old k cur, (k <= String.length old)%nat ->
    split_go ", " k cur (old +:+ ", " +:+ last) =
    split_go ", " k cur old ++ [last].
Proof.
  intros Hlast. induction old as [| c old IH]; intros k cur Hk.
  - simpl in Hk. assert (k = O) by lia. subst k.
    change (split_go ", " 0 cur (String "," (String " " last)) =
            [cur] ++ [last]).
    cbn [split_go]. rewrite !prefix_cons, prefix_empty.
    replace (Ascii.eqb "," ",") with true by reflexivity.
    replace (Ascii.eqb " " " ") with true by reflexivity.
    cbn [andb String.length Nat.pred split_go].
    rewrite (split_go_without_sep _ _ Hlast). reflexivity.
  - rewrite append_cons. destruct k as [| k].
    + cbn [split_go]. rewrite !prefix_cons.
      destruct old as [| c2 old].
      * change ("" +:+ ?y) with y in *.
        change (", " +:+ last) with (String "," (String " " last)) in *.
        rewrite prefix_cons.
        replace (Ascii.eqb " " ",") with false by reflexivity.
        cbn [String.prefix andb]. rewrite !andb_false_r.
        apply (IH O). simpl. lia.
      * rewrite append_cons, !prefix_cons, !prefix_empty.
        destruct (Ascii.eqb "," c && (Ascii.eqb " " c2 && true)).
        -- cbn [String.length Nat.pred app]. f_equal.
           rewrite <- append_cons. apply IH. simpl. lia.
        -- rewrite <- append_cons. apply (IH O). simpl. lia.
    + cbn [split_go]. apply IH. simpl in Hk. lia.
Qed.

Lemma set_last_value_snoc (old last : string) (new_value : Z) :
  contains ", " last = false ->
  set_last_value (old +:+ ", " +:+ last) new_value =
    old +:+ ", " +:+ pretty new_value.
Proof.
  intros Hlast. unfold set_last_value. rewrite contains_append.
  cbn [negb]. unfold split. rewrite (split_go_snoc _ Hlast) by lia.
  rewrite removelast_last.
  rewrite (join_split_go ", ") by (try discriminate; lia).
  reflexivity.
Qed.

(** X2: [set_last_value] keeps every entry of the comma-separated list
    but the last, which becomes the new value; a list without [", "]
    is replaced as a whole. *)
Theorem set_last_value_replaces_last (old last : string) (new_value : Z) :
  contains ", " last = false ->
  set_last_value (old +:+ ", " +:+ last) new_value =
    old +:+ ", " +:+ pretty new_value /\
  set_last_value last new_value = pretty new_value.
Proof.
  intros Hlast. split; [apply set_last_value_snoc, Hlast |].
  unfold set_last_value. rewrite Hlast. reflexivity.
Qed.

Lemma set_last_value_replaces_last_witness :
  contains ", " "0" = false /\
  set_last_value "1625, 38, 0" 412 = "1625, 38, 412".
Proof.
  split; [reflexivity |].
  destruct (set_last_value_replaces_last "1625, 38" "0" 412) as [H _];
    [reflexivity |].
  exact H.
Defined.

(** ** Specifications with results *)

Section SpecRules.

Context {A B : Type}.
Variables P R : World -> Prop.
Variable Q : Res B -> World -> Prop.

Lemma spec_seq (m : M A) (k : A -> M B) :
  spec P m (fun r w => match r with
                       | Ok _ => R w
                       | Raise e => Q (Raise e) w
                       end) ->
  (forall a, spec R (k a) Q) ->
  spec P (m ≫= k) Q.
Proof.
  intros Hm Hk w HP. rewrite run_bind.
  specialize (Hm w HP). unfold result_of, world_of in *.
  destruct (m w) as [[[a | e] w1] t1]; simpl in *; [| exact Hm].
  specialize (Hk a w1 Hm).
  destruct (k a w1) as [[r w2] t2]; simpl in *. exact Hk.
Qed.

(** After [a ← get_self], [a] is the activity of a store with [P], and
    of the current store. *)
Lemma spec_self (k : Activity -> M B) :
  (forall a, (exists w0, P w0 /\ activity w0 = a) ->
             spec (fun w => P w /\ activity w = a) (k a) Q) ->
  spec P (get_self ≫= k) Q.
Proof.
  intros Hk w HP. rewrite run_bind.
  change (get_self w) with (Ok (activity w), w, @nil Event). cbv beta iota.
  assert (Hlink : exists w0, P w0 /\ activity w0 = activity w) by eauto.
  specialize (Hk (activity w) Hlink w (conj HP eq_refl)).
  unfold result_of, world_of in *.
  destruct (k (activity w) w) as [[r w2] t2]; simpl in *. exact Hk.
Qed.

End SpecRules.

Lemma spec_when (P : World -> Prop) (Q : Res unit -> World -> Prop)
    (b : bool) (m : M unit) :
  (b = true -> spec P m Q) ->
  (b = false -> forall w, P w -> Q (Ok tt) w) ->
  spec P (when b m) Q.
Proof.
  intros Ht Hf. destruct b; [apply Ht; reflexivity |].
  intros w HP. apply Hf; [reflexivity | exact HP].
Qed.

(** Walks a computation down to its primitive steps: [I] is kept
    between the steps, [absurd] closes the branches that the facts read
    from [self] rule out, the walk does not enter a goal that [stop]
    accepts, and the steps are left to the caller. *)
Ltac spec_walk_until I absurd stop :=
  repeat first
    [ stop; fail 1
    | solve [absurd]
    | apply spec_self; intros ? ?
    | apply (spec_seq _ I); [| intros ?]
    | apply spec_when; [intros ? | intros ? ? ?]
    | match goal with
      | |- spec _ (match ?x with _ => _ end) _ => destruct x eqn:?
      end ].

Ltac spec_walk I absurd := spec_walk_until I absurd fail.

(** The facts that [spec_self] recorded. *)
Ltac use_links :=
  repeat match goal with
  | H : exists w0, _ /\ activity w0 = _ |- _ =>
      let w0 := fresh "w0" in
      let HP := fresh "HP" in
      let Ha := fresh "Ha" in
      destruct H as (w0 & HP & Ha)
  | H : _ /\ activity _ = _ |- _ =>
      let HP := fresh "HP" in
      let Ha := fresh "Ha" in
      destruct H as (HP & Ha)
  end.

Ltac run_step :=
  cbv [spec result_of world_of mbind M_bind mret M_ret raise emit get_self
       modify_self modify_pending modify_session get_session when
       fst snd].

(** ** [save]: synchronous for a new entry, asynchronous otherwise *)

Ltac unfold_save :=
  unfold save, metadata_set, metadata_get, _update_spent_time, datastore_write.

(** Closes a goal about records and options from the facts at hand. *)
Ltac crush :=
  repeat match goal with
  | H : _ /\ _ |- _ => destruct H
  | H : exists _, _ |- _ => destruct H
  end;
  simplify_eq/=; repeat case_match; simplify_eq/=;
  repeat split; eauto; try congruence.

Lemma save_unsaved_entry (E : Env) (n : nat) :
  spec (unsaved_entry n) (save E) (fun _ w => unsaved_entry n w).
Proof.
  unfold_save. cbn [when].
  spec_walk (unsaved_entry n)
    ltac:(exfalso; use_links; unfold unsaved_entry in *; crush);
    run_step; intros; use_links; unfold unsaved_entry in *; crush.
Qed.

(** X3: saving an entry that has no id yet is synchronous: [save()]
    never sets [_updating_jobject] and leaves no write in flight,
    whether it returns or raises. *)
Theorem save_new_entry_is_synchronous (E : Env) (w : World) (j : JObject) :
  _jobject (activity w) = Some j ->
  object_id j = None ->
  _updating_jobject (activity w) = false ->
  _updating_jobject (activity (world_of (save E w))) = false /\
  ds_pending (world_of (save E w)) = ds_pending w.
Proof.
  intros Hj Hid Hupd.
  destruct (save_unsaved_entry E (ds_pending w) w) as (Hu & Hp & _).
  - unfold unsaved_entry. eauto.
  - split; assumption.
Qed.

Lemma save_new_entry_is_synchronous_witness :
  _updating_jobject (activity (world_of (save sample_env fresh_world)))
    = false /\
  ds_pending (world_of (save sample_env fresh_world)) = 0%nat.
Proof.
  apply (save_new_entry_is_synchronous sample_env fresh_world
           (mkJObject None (metadata sample_jobject) ""));
    reflexivity.
Defined.

Lemma save_saved_entry (E : Env) (n : nat) :
  spec (saved_entry n) (save E)
    (fun r w =>
       match r with
       | Ok _ =>
           _updating_jobject (activity w) = true /\ ds_pending w = S n
       | Raise e =>
           ds_pending w = n /\
           _updating_jobject (activity w) =
             match e with DatastoreError => true | _ => false end
       end).
Proof.
  unfold_save. cbn [when].
  spec_walk_until (saved_entry n)
    ltac:(exfalso; use_links; unfold saved_entry in *; crush)
    ltac:(idtac;
          match goal with
          | |- spec _ (mbind _ (modify_self (set_updating_jobject true))) _ =>
              idtac
          end);
    run_step; intros; use_links; unfold saved_entry in *; crush.
Qed.

(** X4: an entry without the [spent-times] key cannot be saved: past its
    guards [save()] raises [KeyError] before it calls [write_file] or
    the datastore, and starts no write. *)
Theorem save_without_spent_times (E : Env) (w : World) (j : JObject) :
  _jobject (activity w) = Some j ->
  metadata j !! "spent-times" = None ->
  _updating_jobject (activity w) = false ->
  (_active (activity w) = true -> is_Some (_active_time (activity w))) ->
  result_of (save E w) = Raise (KeyError "spent-times") /\
  save_work (trace_of (save E w)) = false /\
  _updating_jobject (activity (world_of (save E w))) = false /\
  ds_pending (world_of (save E w)) = ds_pending w.
Proof.
  intros Hj Hkey Hupd Hactive. unfold save. run_monad.
  unfold metadata_set, metadata_get, _update_spent_time. run_monad.
  rewrite Hj, Hupd.
  destruct (bool_decide (_get_buddies E (activity w) = ∅));
    destruct (_active (activity w)) eqn:Hact;
    try (destruct Hactive as [t0 Ht0]; [reflexivity |]);
    repeat (progress (cbn -[set_last_value os_path_join pretty];
                      rewrite ?Hj, ?Hupd, ?Ht0, ?Hkey,
                        ?lookup_insert_ne by discriminate));
    auto.
Qed.

Lemma save_without_spent_times_witness :
  result_of (save sample_env broken_world) = Raise (KeyError "spent-times") /\
  save_work (trace_of (save sample_env broken_world)) = false.
Proof.
  destruct (save_without_spent_times sample_env broken_world
              (mkJObject (Some "5a1f4072") ∅ "")) as (Hr & Hw & _);
    [reflexivity | reflexivity | reflexivity | discriminate |].
  split; assumption.
Defined.

(** ** Saving twice while active *)

Lemma save_active_untimed (E : Env) (w : World) (j : JObject) :
  _jobject (activity w) = Some j ->
  _updating_jobject (activity w) = false ->
  _active (activity w) = true ->
  _active_time (activity w) = None ->
  result_of (save E w) = Raise TypeError /\
  save_work (trace_of (save E w)) = false.
Proof.
  intros Hj Hupd Hact Htime. unfold save. run_monad.
  unfold metadata_set, metadata_get, _update_spent_time. run_monad.
  rewrite Hj, Hupd, Hact.
  destruct (bool_decide (_get_buddies E (activity w) = ∅));
    repeat (progress (cbn -[set_last_value os_path_join pretty];
                      rewrite ?Hj, ?Hupd, ?Htime));
    auto.
Qed.

Lemma save_while_active (E : Env) :
  spec active_idle (save E) (fun _ w => active_untimed w).
Proof.
  unfold_save. cbn [when].
  spec_walk_until active_idle
    ltac:(exfalso; use_links; unfold active_idle in *; crush)
    ltac:(idtac;
          match goal with
          | |- spec _ (mbind _ (when (_active _) _)) _ => idtac
          end);
    try (lazymatch goal with
         | |- spec _ (mbind _ (when (_active _) _)) _ => fail
         | |- _ =>
             solve [run_step; intros; use_links;
                    unfold active_idle, active_untimed in *; crush]
         end).
  apply (spec_seq _ active_untimed); [| intros ?].
  - spec_walk active_idle
      ltac:(exfalso; use_links; unfold active_idle in *; crush);
      run_step; intros; use_links;
      unfold active_idle, active_untimed in *; crush.
  - spec_walk active_untimed
      ltac:(exfalso; use_links; unfold active_untimed in *; crush);
      run_step; intros; use_links; unfold active_untimed in *; crush.
Qed.

(** X5: [save()] on an active activity accounts the time spent and
    forgets when the activity was activated, but leaves it active: if
    no write is pending afterwards, the next [save()] raises
    [TypeError] before it calls [write_file] or the datastore. *)
Theorem save_twice_while_active (E E' : Env) (w : World) (j : JObject) :
  _jobject (activity w) = Some j ->
  _updating_jobject (activity w) = false ->
  _active (activity w) = true ->
  let saved := world_of (save E w) in
  _active (activity saved) = true /\
  _active_time (activity saved) = None /\
  (_updating_jobject (activity saved) = false ->
   result_of (save E' saved) = Raise TypeError /\
   save_work (trace_of (save E' saved)) = false).
Proof.
  intros Hj Hupd Hact saved.
  destruct (save_while_active E w) as (Ha & Ht & j' & Hj').
  - unfold active_idle. eauto.
  - fold saved in Ha, Ht, Hj'. repeat split; try assumption;
      apply (save_active_untimed E' saved j'); assumption.
Qed.

Lemma save_twice_while_active_witness :
  result_of (save sample_env active_world) = Ok tt /\
  result_of (save sample_env (world_of (save sample_env active_world)))
    = Raise TypeError.
Proof.
  split; [reflexivity |].
  destruct (save_twice_while_active sample_env sample_env active_world
              (mkJObject None (metadata sample_jobject) ""))
    as (_ & _ & Hnext); [reflexivity | reflexivity | reflexivity |].
  apply Hnext. reflexivity.
Defined.

(** ** [save] on an entry that has an id *)

Lemma save_guarded_quiet (E : Env) (w : World) :
  _updating_jobject (activity w) = true ->
  save_work (trace_of (save E w)) = false.
Proof.
  intros Hupd. unfold save. run_monad. rewrite Hupd.
  destruct (_jobject (activity w)); reflexivity.
Qed.

(** X6: when [save()] of an entry that has an id returns, it has set
    [_updating_jobject] and exactly one more write is in flight. *)
Theorem save_existing_entry_goes_async (E : Env) (w : World)
    (j : JObject) (oid : string) :
  _jobject (activity w) = Some j ->
  object_id j = Some oid ->
  _updating_jobject (activity w) = false ->
  result_of (save E w) = Ok tt ->
  _updating_jobject (activity (world_of (save E w))) = true /\
  ds_pending (world_of (save E w)) = S (ds_pending w).
Proof.
  intros Hj Hid Hupd Hok.
  pose proof (save_saved_entry E (ds_pending w) w) as H.
  rewrite Hok in H. apply H. unfold saved_entry. eauto 6.
Qed.

Lemma save_existing_entry_goes_async_witness :
  _updating_jobject (activity (world_of (save sample_env sample_world)))
    = true /\
  ds_pending (world_of (save sample_env sample_world)) = 1%nat.
Proof.
  apply (save_existing_entry_goes_async sample_env sample_world
           sample_jobject "5a1f4072"); reflexivity.
Defined.

(** X7: [save()] sets [_updating_jobject] before it calls the datastore
    and does not clear it when that call raises: the flag then stays
    set with nothing in flight, and every later [save()] returns at
    once without writing. *)
Theorem save_datastore_failure_blocks_saving (E E' : Env) (w : World)
    (j : JObject) (oid : string) :
  _jobject (activity w) = Some j ->
  object_id j = Some oid ->
  _updating_jobject (activity w) = false ->
  result_of (save E w) = Raise DatastoreError ->
  let failed := world_of (save E w) in
  _updating_jobject (activity failed) = true /\
  ds_pending failed = ds_pending w /\
  world_of (save E' failed) = failed /\
  save_work (trace_of (save E' failed)) = false.
Proof.
  intros Hj Hid Hupd Hraise failed.
  pose proof (save_saved_entry E (ds_pending w) w) as H.
  rewrite Hraise in H. destruct H as [Hp Hu].
  { unfold saved_entry. eauto 6. }
  fold failed in Hp, Hu. repeat split; try assumption.
  - apply save_guarded, Hu.
  - apply save_guarded_quiet, Hu.
Qed.

Lemma save_datastore_failure_blocks_saving_witness :
  result_of (save failing_datastore_env sample_world) = Raise DatastoreError /\
  save_work
    (trace_of (save sample_env
                 (world_of (save failing_datastore_env sample_world))))
    = false.
Proof.
  split; [reflexivity |].
  destruct (save_datastore_failure_blocks_saving failing_datastore_env
              sample_env sample_world sample_jobject "5a1f4072")
    as (_ & _ & _ & Hq); [reflexivity | reflexivity | reflexivity
                          | reflexivity |].
  exact Hq.
Defined.

(** ** What [save] writes into the metadata *)

Lemma lookup_written (writes : list (string * string))
    (m : gmap string string) (key : string) :
  key ∉ writes.*1 ->
  foldl (fun m kv => <[kv.1 := kv.2]> m) m writes !! key = m !! key.
Proof.
  revert m. induction writes as [| [k v] writes IH]; intros m Hkey;
    [reflexivity |].
  cbn [foldl fst snd]. rewrite fmap_cons in Hkey. cbn [fst] in Hkey.
  apply not_elem_of_cons in Hkey as [Hk Hrest].
  rewrite (IH _ Hrest). apply lookup_insert_ne. congruence.
Qed.

Lemma save_keeps_other_keys (E : Env) (key : string) (x : option string) :
  key ∉ save_keys ->
  (forall a path, key ∉ (write_file_metadata E a path).*1) ->
  spec (keeps_key key x) (save E) (fun _ w => keeps_key key x w).
Proof.
  intros Hkey Hwrites.
  assert (H1 : "buddies_id" <> key) by (intros <-; apply Hkey; set_solver).
  assert (H2 : "buddies" <> key) by (intros <-; apply Hkey; set_solver).
  assert (H3 : "spent-times" <> key) by (intros <-; apply Hkey; set_solver).
  assert (H4 : "preview" <> key) by (intros <-; apply Hkey; set_solver).
  assert (H5 : "activity_id" <> key) by (intros <-; apply Hkey; set_solver).
  clear Hkey.
  unfold_save. cbn [when].
  spec_walk (keeps_key key x) ltac:(fail);
    run_step; intros; use_links; subst;
    unfold keeps_key, journal_metadata in *; cbn in *;
    repeat match goal with
    | H : activity _ = activity _ |- _ => try rewrite H in *; clear H
    end;
    repeat match goal with
    | H : _jobject _ = _ |- _ => try rewrite H in *; clear H
    end;
    cbn in *; repeat case_match; simplify_eq/=;
    repeat match goal with
    | H : _jobject _ = _ |- _ => rewrite H; clear H
    end;
    cbn; rewrite ?lookup_written by apply Hwrites;
    rewrite ?lookup_insert_ne by assumption; congruence.
Qed.

(** X8: [save()] itself writes no metadata key other than [buddies_id],
    [buddies], [spent-times], [preview] and [activity_id]: any other
    key that the overridden [write_file] does not assign keeps its
    value, or stays absent, whether [save()] returns or raises. *)
Theorem save_writes_only_its_keys (E : Env) (w : World) (key : string) :
  key ∉ save_keys ->
  (forall a path, key ∉ (write_file_metadata E a path).*1) ->
  journal_metadata (world_of (save E w)) ≫= (fun m => m !! key) =
  journal_metadata w ≫= (fun m => m !! key).
Proof.
  intros Hkey Hwrites.
  apply (save_keeps_other_keys E key _ Hkey Hwrites w). reflexivity.
Qed.

Lemma save_writes_only_its_keys_witness :
  journal_metadata (world_of (save paging_env titled_world))
    ≫= (fun m => m !! "title") = Some "Report" /\
  journal_metadata (world_of (save paging_env titled_world))
    ≫= (fun m => m !! "page") = Some "3".
Proof.
  split; [| reflexivity].
  rewrite (save_writes_only_its_keys paging_env titled_world "title").
  - reflexivity.
  - unfold save_keys. intros H.
    repeat (apply elem_of_cons in H; destruct H as [H | H];
            [discriminate H |]).
    inversion H.
  - intros a path H. cbn in H.
    apply elem_of_cons in H; destruct H as [H | H]; [discriminate H |].
    inversion H.
Defined.

(** ** [set_active] and the time spent *)




(** X10: [set_active] calls [save()] only when the activity goes from
    active to inactive and has a journal object: setting the value it
    already has changes nothing, and in every other case no call leaves
    the activity. *)
Theorem set_active_saves_only_on_deactivation (E : Env) (w : World)
    (active : bool) :
  (_active (activity w) = active ->
     set_active E active w = (Ok tt, w, [])) /\
  (active = true \/ _jobject (activity w) = None ->
     trace_of (set_active E active w) = []).
Proof.
  unfold set_active, _update_spent_time. run_monad. split.
  - intros ->. rewrite Bool.eqb_reflx. reflexivity.
  - intros Hcase. destruct (Bool.eqb (_active (activity w)) active);
      [reflexivity |].
    destruct Hcase as [-> | Hnone].
    + reflexivity.
    + destruct active; [reflexivity |].
      cbn [activity with_activity set_active_field _active_time].
      destruct (_active_time (activity w)); [| reflexivity].
      cbn. rewrite Hnone. reflexivity.
Qed.

Lemma set_active_saves_only_on_deactivation_witness :
  set_active sample_env false sample_world = (Ok tt, sample_world, []) /\
  trace_of (set_active sample_env true sample_world) = [].
Proof.
  destruct (set_active_saves_only_on_deactivation sample_env sample_world false)
    as [Hsame _].
  destruct (set_active_saves_only_on_deactivation sample_env sample_world true)
    as [_ Hup].
  split; [apply Hsame; reflexivity | apply Hup; left; reflexivity].
Defined.

(** ** [copy] *)

Lemma save_keeps_jobject (E : Env) :
  spec has_jobject (save E) (fun _ w => has_jobject w).
Proof.
  unfold_save. cbn [when].
  spec_walk has_jobject
    ltac:(exfalso; use_links; unfold has_jobject in *; crush);
    run_step; intros; use_links; unfold has_jobject in *; crush.
Qed.

(** X11: without a journal object [copy()] raises [AttributeError] and
    changes nothing; when [copy()] returns, the journal object has lost
    its id, so that the next write creates a new entry. *)
Theorem copy_forgets_the_id (E : Env) (w : World) :
  (_jobject (activity w) = None ->
     copy E w = (Raise AttributeError, w, [])) /\
  (result_of (copy E w) = Ok tt ->
     exists j, _jobject (activity (world_of (copy E w))) = Some j /\
               object_id j = None).
Proof.
  unfold copy. run_monad. split.
  - intros ->. reflexivity.
  - destruct (_jobject (activity w)) as [j |] eqn:Hj; [| discriminate].
    pose proof (save_keeps_jobject E w) as Hkeep.
    unfold spec, result_of, world_of, has_jobject in *.
    destruct (save E w) as [[[[] | e] w1] t1]; simpl in *; [| discriminate].
    intros _. destruct Hkeep as [j1 Hj1]; [eauto |].
    rewrite Hj1. simpl. eauto.
Qed.

Lemma copy_forgets_the_id_witness :
  exists j, _jobject (activity (world_of (copy sample_env sample_world)))
              = Some j /\ object_id j = None.
Proof.
  destruct (copy_forgets_the_id sample_env sample_world) as [_ Hok].
  apply Hok. reflexivity.
Defined.

(** ** Registering with the session *)

Lemma list_remove_first_snoc (n : nat) (l : list nat) :
  n ∉ l -> list_remove_first n (l ++ [n]) = l.
Proof.
  induction l as [| y l IH]; intros Hn; simpl.
  - rewrite Nat.eqb_refl. reflexivity.
  - apply not_elem_of_cons in Hn as [Hne Hn].
    destruct (Nat.eqb y n) eqn:Hy.
    + apply Nat.eqb_eq in Hy. congruence.
    + rewrite (IH Hn). reflexivity.
Qed.

Lemma existsb_eqb_not_elem_of (n : nat) (l : list nat) :
  n ∉ l -> existsb (Nat.eqb n) l = false.
Proof.
  intros Hn. destruct (existsb (Nat.eqb n) l) eqn:H; [| reflexivity].
  apply existsb_eqb_elem_of in H. contradiction.
Qed.

(** X12: [unregister] of an activity that is not registered raises
    [ValueError] and leaves the session as it was, without quitting the
    main loop. *)
Theorem unregister_unknown_activity (n : nat) (w : World) :
  n ∉ _activities (session w) ->
  unregister n w = (Raise ValueError, w, []).
Proof.
  intros Hn. unfold unregister. run_monad.
  rewrite (existsb_eqb_not_elem_of _ _ Hn). reflexivity.
Qed.

Lemma unregister_unknown_activity_witness :
  unregister 7 sample_world = (Raise ValueError, sample_world, []).
Proof.
  apply unregister_unknown_activity. simpl. intros H.
  apply elem_of_cons in H as [H | H]; [discriminate H | inversion H].
Defined.

(** X13: [unregister] of a registered activity removes one entry from the
    list, leaves the agreed list alone, and quits the main loop exactly
    when no activity is left. *)
Theorem unregister_quits_after_the_last (n : nat) (w : World) :
  n ∈ _activities (session w) ->
  let after := unregister n w in
  result_of after = Ok tt /\
  activity (world_of after) = activity w /\
  _activities (session (world_of after)) =
    list_remove_first n (_activities (session w)) /\
  S (length (_activities (session (world_of after)))) =
    length (_activities (session w)) /\
  _will_quit (session (world_of after)) = _will_quit (session w) /\
  existsb is_main_quit (trace_of after) =
    bool_decide (_activities (session (world_of after)) = []).
Proof.
  intros Hn. cbv zeta. unfold unregister. run_monad.
  apply existsb_eqb_elem_of in Hn. rewrite Hn.
  cbn [with_session session _activities _will_quit activity].
  assert (Hlen : S (length (list_remove_first n (_activities (session w)))) =
                 length (_activities (session w))).
  { apply existsb_eqb_elem_of in Hn.
    induction (_activities (session w)) as [| y l IH]; [inversion Hn |].
    simpl. destruct (Nat.eqb y n) eqn:Hy; [reflexivity |].
    simpl. f_equal. apply IH.
    apply elem_of_cons in Hn as [-> | Hn]; [| exact Hn].
    rewrite Nat.eqb_refl in Hy. discriminate Hy. }
  destruct (list_remove_first n (_activities (session w))) eqn:Hrest;
    simpl in Hlen; cbn; rewrite ?Hrest; repeat split; auto.
Qed.

Lemma unregister_quits_after_the_last_witness :
  existsb is_main_quit (trace_of (unregister 1 sample_world)) = true /\
  existsb is_main_quit (trace_of (unregister 1 shared_process_world)) = false.
Proof.
  split.
  - destruct (unregister_quits_after_the_last 1 sample_world)
      as (_ & _ & _ & _ & _ & Hq).
    + simpl. apply elem_of_cons. left. reflexivity.
    + rewrite Hq. reflexivity.
  - destruct (unregister_quits_after_the_last 1 shared_process_world)
      as (_ & _ & _ & _ & _ & Hq).
    + simpl. apply elem_of_cons. left. reflexivity.
    + rewrite Hq. reflexivity.
Defined.

(** X14: registering an activity that was not registered and then
    unregistering it gives back the session as it was. *)
Theorem register_then_unregister (n : nat) (w : World) :
  n ∉ _activities (session w) ->
  result_of (unregister n (world_of (register n w))) = Ok tt /\
  world_of (unregister n (world_of (register n w))) = w.
Proof.
  intros Hn. destruct w as [a [acts agreed] n0]. simpl in Hn.
  assert (Hin : existsb (Nat.eqb n) (acts ++ [n]) = true).
  { apply existsb_eqb_elem_of, elem_of_app. right.
    apply elem_of_cons. left. reflexivity. }
  unfold unregister, register. run_monad.
  unfold with_session, world_of, result_of. cbn. rewrite Hin. cbn.
  rewrite (list_remove_first_snoc _ _ Hn).
  destruct acts; split; reflexivity.
Qed.

Lemma register_then_unregister_witness :
  world_of (unregister 2 (world_of (register 2 sample_world))) = sample_world.
Proof.
  apply register_then_unregister. simpl. intros H.
  apply elem_of_cons in H as [H | H]; [discriminate H | inversion H].
Defined.

(** X15: a refusal empties the agreed list, so the negotiation starts
    over: the next agreement is forwarded only if the agreeing activity
    is the only one registered. *)
Theorem refusal_restarts_negotiation (a b : nat) (w : World) :
  let refused := world_of (session_will_quit a false w) in
  forwarded true (trace_of (session_will_quit b true refused)) = true <->
  forall x, x ∈ _activities (session w) -> x = b.
Proof.
  cbv zeta. rewrite !session_will_quit_run.
  cbn [world_of trace_of fst snd with_session session _activities _will_quit
       app].
  split.
  - intros H x Hx.
    destruct (all_agreed (_activities (session w)) [b]) eqn:Hall;
      [| discriminate H].
    apply all_agreed_spec with (a := x) in Hall; [| exact Hx].
    apply list_elem_of_singleton in Hall. exact Hall.
  - intros H.
    assert (Hall : all_agreed (_activities (session w)) [b] = true).
    { apply all_agreed_spec. intros x Hx. rewrite (H x Hx).
      apply list_elem_of_singleton. reflexivity. }
    rewrite Hall. reflexivity.
Qed.

Lemma refusal_restarts_negotiation_witness :
  forwarded true
    (trace_of (session_will_quit 2 true
       (world_of (session_will_quit 1 true shared_process_world)))) = true /\
  forwarded true
    (trace_of (session_will_quit 2 true
       (world_of (session_will_quit 1 false
          (world_of (session_will_quit 1 true shared_process_world))))))
    = false.
Proof.
  split; [reflexivity |].
  destruct (refusal_restarts_negotiation 1 2
              (world_of (session_will_quit 1 true shared_process_world)))
    as [Himp _].
  destruct (forwarded true _) eqn:Hfw; [| reflexivity].
  specialize (Himp eq_refl 1%nat). simpl in Himp.
  assert (H12 : 1%nat = 2%nat)
    by (apply Himp, elem_of_cons; left; reflexivity).
  discriminate H12.
Defined.

(** ** Finalizing *)

(** X16: [_cleanup_jobject] forgets the journal object and the ownership
    of its file, removes the file only if the activity owns it and it
    exists, and does nothing the second time. *)
Theorem cleanup_jobject_once (E : Env) (w : World) :
  let cleaned := _cleanup_jobject E w in
  result_of cleaned = Ok tt /\
  _jobject (activity (world_of cleaned)) = None /\
  _owns_file (activity (world_of cleaned)) =
    match _jobject (activity w) with
    | Some _ => false
    | None => _owns_file (activity w)
    end /\
  existsb is_os_remove (trace_of cleaned) =
    match _jobject (activity w) with
    | Some j => _owns_file (activity w) && os_path_isfile E (file_path j)
    | None => false
    end /\
  _cleanup_jobject E (world_of cleaned) = (Ok tt, world_of cleaned, []).
Proof.
  cbv zeta. unfold _cleanup_jobject. run_monad.
  destruct (_jobject (activity w)) as [j |] eqn:Hj.
  - destruct (_owns_file (activity w) && os_path_isfile E (file_path j));
      cbn; repeat split; auto.
  - cbn. rewrite Hj. repeat split; auto.
Qed.

Lemma complete_close_never_saves (E : Env) :
  quiet (fun e => is_write_file e || is_datastore_write e) (_complete_close E).
Proof. unfold _complete_close, _cleanup_jobject, unregister. quiet_walk. Qed.

Lemma complete_close_never_reports (E : Env) (b : bool) :
  quiet (is_report b) (_complete_close E).
Proof. unfold _complete_close, _cleanup_jobject, unregister. quiet_walk. Qed.

(** X17: [_complete_close] destroys the window and releases the journal
    object before it unregisters: it raises exactly when the activity is
    not registered with the session, and then the journal object is gone
    all the same.  It never saves and never answers the session. *)
Theorem complete_close_outcome (E : Env) (w : World) :
  let closed := _complete_close E w in
  _jobject (activity (world_of closed)) = None /\
  finalized (trace_of closed) = true /\
  save_work (trace_of closed) = false /\
  reported true (trace_of closed) = false /\
  reported false (trace_of closed) = false /\
  result_of closed =
    (if bool_decide (self_id (activity w) ∈ _activities (session w))
     then Ok tt else Raise ValueError).
Proof.
  cbv zeta.
  pose proof (complete_close_finalizes E w) as Hfin.
  pose proof (complete_close_never_saves E w) as Hsave.
  pose proof (complete_close_never_reports E true w) as Hrt.
  pose proof (complete_close_never_reports E false w) as Hrf.
  split; [| split; [exact Hfin | split; [exact Hsave |
             split; [exact Hrt | split; [exact Hrf |]]]]].
  - unfold _complete_close, _cleanup_jobject, unregister. run_monad.
    destruct (bool_decide (is_Some (shared_activity (activity w))));
      destruct (_jobject (activity w)) eqn:Hj;
      try destruct (_owns_file (activity w) && os_path_isfile E _);
      destruct (powerd_inhibit_dir_exists E && powerd_inhibit_file_exists E);
      cbn;
      destruct (existsb (Nat.eqb (self_id (activity w)))
                  (_activities (session w)));
      cbn; try destruct (list_remove_first _ _); cbn; rewrite ?Hj;
      reflexivity.
  - unfold _complete_close, _cleanup_jobject, unregister. run_monad.
    destruct (existsb (Nat.eqb (self_id (activity w)))
                (_activities (session w))) eqn:Hin.
    + rewrite (bool_decide_eq_true_2
                 (self_id (activity w) ∈ _activities (session w)))
        by (apply existsb_eqb_elem_of; exact Hin).
      destruct (bool_decide (is_Some (shared_activity (activity w))));
        destruct (_jobject (activity w));
        try destruct (_owns_file (activity w) && os_path_isfile E _);
        destruct (powerd_inhibit_dir_exists E && powerd_inhibit_file_exists E);
        cbn; rewrite Hin; cbn;
        try destruct (list_remove_first _ _); reflexivity.
    + rewrite (bool_decide_eq_false_2
                 (self_id (activity w) ∈ _activities (session w)))
        by (intros Hel; apply existsb_eqb_elem_of in Hel; congruence).
      destruct (bool_decide (is_Some (shared_activity (activity w))));
        destruct (_jobject (activity w));
        try destruct (_owns_file (activity w) && os_path_isfile E _);
        destruct (powerd_inhibit_dir_exists E && powerd_inhibit_file_exists E);
        cbn; rewrite Hin; reflexivity.
Qed.

(** ** [close] while a close is in progress *)

(** X18: while a close waits for the datastore ([_closing] and
    [_updating_jobject] are set), another [close()] only sets the cursor
    and emits the signal: the store is unchanged and nothing is saved
    or finalized. *)
Theorem close_while_waiting (E : Env) (skip_save : bool) (w : World) :
  can_close E (activity w) = true ->
  _closing (activity w) = true ->
  _updating_jobject (activity w) = true ->
  close E skip_save w = (Ok tt, w, [EvSetCursorWatch; EvEmitClosing]).
Proof.
  intros Hc Hcl Hupd. unfold close. run_monad.
  rewrite Hc, Hcl. cbn. rewrite Hupd. reflexivity.
Qed.

Lemma close_while_waiting_witness :
  close sample_env false (world_of (close sample_env false sample_world)) =
  (Ok tt, world_of (close sample_env false sample_world),
   [EvSetCursorWatch; EvEmitClosing]).
Proof.
  apply close_while_waiting; reflexivity.
Defined.

(** X19: [Stop anyway] tells the session that the activity will quit
    whenever a quit was requested, even when [can_close()] vetoes the
    close: the activity then stays as it is and nothing is finalized. *)
Theorem stop_anyway_reports_despite_veto (E : Env) (w : World) :
  can_close E (activity w) = false ->
  _quit_requested (activity w) = true ->
  let stop := _keep_failed_dialog_response_cb E RESPONSE_OK w in
  result_of stop = Ok tt /\
  activity (world_of stop) = activity w /\
  finalized (trace_of stop) = false /\
  reported true (trace_of stop) = true.
Proof.
  intros Hveto Hquit. cbv zeta.
  unfold _keep_failed_dialog_response_cb, close.
  change (RESPONSE_OK =? RESPONSE_OK) with true. run_monad.
  rewrite Hveto. cbn. rewrite Hquit.
  rewrite session_will_quit_run. cbn.
  destruct (all_agreed _ _); cbn; auto.
Qed.

Lemma stop_anyway_reports_despite_veto_witness :
  reported true
    (trace_of (_keep_failed_dialog_response_cb vetoing_env RESPONSE_OK
                 quitting_world)) = true.
Proof.
  apply (stop_anyway_reports_despite_veto vetoing_env quitting_world);
    reflexivity.
Defined.

(** ** Resuming and the journal times *)


(** ** Sharing *)

(** X21: the share scope that [__privacy_changed_cb] stores in the
    journal is the one that makes [_set_up_sharing] share again with the
    same privacy when the entry is resumed and no instance is on the
    mesh. *)
Theorem privacy_survives_resume (private : bool) (w : World) (sh : Sharing)
    (j : JObject) (joined_cb : Res unit) :
  _jobject (activity w) = Some j ->
  mesh_instance sh = None ->
  exists share_scope,
    journal_metadata (world_of (__privacy_changed_cb private w))
      ≫= (fun m => m !! "share-scope") = Some share_scope /\
    _set_up_sharing joined_cb None share_scope sh =
      (Ok tt, sh, [CallShareActivity private]).
Proof.
  intros Hj Hmesh.
  exists (if private then SCOPE_INVITE_ONLY else SCOPE_NEIGHBORHOOD).
  split.
  - unfold __privacy_changed_cb, metadata_set, journal_metadata. run_monad.
    rewrite Hj. cbn. rewrite Hj. cbn. apply lookup_insert_eq.
  - unfold _set_up_sharing, share. rewrite Hmesh.
    destruct private; reflexivity.
Qed.

Lemma privacy_survives_resume_witness :
  exists share_scope,
    journal_metadata (world_of (__privacy_changed_cb true sample_world))
      ≫= (fun m => m !! "share-scope") = Some share_scope /\
    _set_up_sharing (Ok tt) None share_scope (mkSharing None []) =
      (Ok tt, mkSharing None [], [CallShareActivity true]).
Proof.
  apply (privacy_survives_resume true sample_world (mkSharing None [])
           sample_jobject (Ok tt)); reflexivity.
Defined.

(** ** Invitations *)

Lemma send_invites_loop_shared (get_buddy : string -> string -> option Buddy)
    (pending : list (string * string)) :
  _send_invites_loop get_buddy true pending =
  (Ok tt, [], map (invite_call get_buddy) pending).
Proof.
  induction pending as [| [account_path contact_id] rest IH];
    [reflexivity |].
  cbn [_send_invites_loop map]. rewrite IH. unfold invite_call. cbn [fst snd].
  destruct (get_buddy account_path contact_id); reflexivity.
Qed.

(** X22: on a shared activity [_send_invites] returns with the queue
    empty, having handled every queued contact once, the one queued last
    first: an invitation for a known buddy, an error line for an unknown
    one. *)
Theorem send_invites_drains_queue
    (get_buddy : string -> string -> option Buddy) (sh : Sharing)
    (m : MeshActivity) :
  mesh_instance sh = Some m ->
  _send_invites get_buddy sh =
  (Ok tt, mkSharing (Some m) [],
   map (invite_call get_buddy) (rev (_invites_queue sh))).
Proof.
  intros Hm. unfold _send_invites. rewrite Hm.
  change (bool_decide (is_Some (Some m))) with true.
  rewrite send_invites_loop_shared. reflexivity.
Qed.

Lemma send_invites_drains_queue_witness :
  _send_invites sample_get_buddy
    (mkSharing (Some (mkMeshActivity true)) [("acct", "ana"); ("acct", "bo")]) =
  (Ok tt, mkSharing (Some (mkMeshActivity true)) [],
   [CallLogNoSuchBuddy "acct" "bo"; CallInvite sample_buddy]).
Proof.
  apply (send_invites_drains_queue sample_get_buddy
           (mkSharing (Some (mkMeshActivity true))
              [("acct", "ana"); ("acct", "bo")])).
  reflexivity.
Defined.

(** X23: without a shared activity [_send_invites] raises
    [AttributeError] at the first known buddy it pops, and that contact
    has then left the queue without having been invited. *)
Theorem send_invites_unshared_drops_contact
    (get_buddy : string -> string -> option Buddy)
    (queue : list (string * string)) (account_path contact_id : string)
    (buddy : Buddy) :
  get_buddy account_path contact_id = Some buddy ->
  _send_invites get_buddy
    (mkSharing None (queue ++ [(account_path, contact_id)])) =
  (Raise AttributeError, mkSharing None queue, []).
Proof.
  intros Hb. unfold _send_invites. cbn [mesh_instance _invites_queue].
  rewrite rev_app_distr. cbn [rev app _send_invites_loop].
  rewrite Hb. change (bool_decide (is_Some None)) with false. cbv iota.
  rewrite rev_involutive. reflexivity.
Qed.

Lemma send_invites_unshared_drops_contact_witness :
  _send_invites sample_get_buddy (mkSharing None [("acct", "bo"); ("acct", "ana")]) =
  (Raise AttributeError, mkSharing None [("acct", "bo")], []).
Proof.
  apply (send_invites_unshared_drops_contact sample_get_buddy
           [("acct", "bo")] "acct" "ana" sample_buddy).
  reflexivity.
Defined.

(** X24: [invite] on an activity that is not shared, or whose share has
    not been joined yet, queues the contact and asks for a private
    share without sending or raising anything; once the shared activity
    is set, [_send_invites] delivers that contact first and empties the
    queue. *)
Theorem invite_is_delivered_after_share
    (get_buddy : string -> string -> option Buddy)
    (account_path contact_id : string) (sh : Sharing) (m : MeshActivity) :
  match mesh_instance sh with
  | Some m0 => mesh_joined m0 = false
  | None => True
  end ->
  let invited := invite get_buddy account_path contact_id sh in
  invited =
    (Ok tt,
     mkSharing (mesh_instance sh)
       (_invites_queue sh ++ [(account_path, contact_id)]),
     [CallShareActivity true]) /\
  _send_invites get_buddy
    (mkSharing (Some m) (_invites_queue (snd (fst invited)))) =
    (Ok tt, mkSharing (Some m) [],
     invite_call get_buddy (account_path, contact_id) ::
       map (invite_call get_buddy) (rev (_invites_queue sh))).
Proof.
  intros Hm invited.
  assert (Hinv : invited =
    (Ok tt,
     mkSharing (mesh_instance sh)
       (_invites_queue sh ++ [(account_path, contact_id)]),
     [CallShareActivity true])).
  { subst invited. unfold invite, share. cbn [mesh_instance _invites_queue].
    destruct (mesh_instance sh) as [m0 |]; [rewrite Hm |]; reflexivity. }
  split; [exact Hinv |]. rewrite Hinv. cbn [fst snd _invites_queue].
  unfold _send_invites. cbn [mesh_instance _invites_queue].
  change (bool_decide (is_Some (Some m))) with true.
  rewrite send_invites_loop_shared, rev_app_distr. reflexivity.
Qed.

Lemma invite_is_delivered_after_share_witness :
  invite sample_get_buddy "acct" "ana" (mkSharing None []) =
    (Ok tt, mkSharing None [("acct", "ana")], [CallShareActivity true]) /\
  _send_invites sample_get_buddy
    (mkSharing (Some (mkMeshActivity true)) [("acct", "ana")]) =
    (Ok tt, mkSharing (Some (mkMeshActivity true)) [],
     [CallInvite sample_buddy]).
Proof.
  apply (invite_is_delivered_after_share sample_get_buddy "acct" "ana"
           (mkSharing None []) (mkMeshActivity true)).
  exact I.
Defined.

(** X25: [invite] on a joined activity sends at once: the new contact is
    handled first, then what was still queued, and the queue is left
    empty. *)
Theorem invite_on_joined_activity
    (get_buddy : string -> string -> option Buddy)
    (account_path contact_id : string) (sh : Sharing) (m : MeshActivity) :
  mesh_instance sh = Some m ->
  mesh_joined m = true ->
  invite get_buddy account_path contact_id sh =
  (Ok tt, mkSharing (Some m) [],
   invite_call get_buddy (account_path, contact_id) ::
     map (invite_call get_buddy) (rev (_invites_queue sh))).
Proof.
  intros Hm Hj. unfold invite. cbn [mesh_instance _invites_queue].
  rewrite Hm, Hj. cbn [negb]. unfold _send_invites.
  cbn [mesh_instance _invites_queue].
  change (bool_decide (is_Some (Some m))) with true.
  rewrite send_invites_loop_shared, rev_app_distr. reflexivity.
Qed.

Lemma invite_on_joined_activity_witness :
  invite sample_get_buddy "acct" "ana"
    (mkSharing (Some (mkMeshActivity true)) [("acct", "bo")]) =
  (Ok tt, mkSharing (Some (mkMeshActivity true)) [],
   [CallInvite sample_buddy; CallLogNoSuchBuddy "acct" "bo"]).
Proof.
  apply (invite_on_joined_activity sample_get_buddy "acct" "ana"
           (mkSharing (Some (mkMeshActivity true)) [("acct", "bo")])
           (mkMeshActivity true)); reflexivity.
Defined.

(** ** The suspend monitor *)

(** X26: the monitor tells the activity about a change of the suspended
    state once: an event that is not a change of the file, or a file
    that reports the state the monitor already has, does not reach the
    activity. *)
Theorem monitor_reports_each_state_once (E : Env) (st : option bool)
    (content : Z) (w : World) :
  _file_changed_cb E st false content w = (Ok tt, w, []) /\
  _file_changed_cb E (monitor_after st true content) true content w =
    (Ok tt, w, []) /\
  _file_changed_cb E None true content w =
    set_active E (content =? 0) w.
Proof.
  unfold _file_changed_cb, monitor_after. cbn [negb].
  rewrite Bool.eqb_reflx, Bool.negb_involutive. repeat split.
Qed.

(** ** When [save] returns *)

Lemma written_keeps_key (writes : list (string * string))
    (m : gmap string string) (key : string) :
  is_Some (m !! key) ->
  is_Some (foldl (fun m kv => <[kv.1 := kv.2]> m) m writes !! key).
Proof.
  revert m. induction writes as [| [k v] writes IH]; intros m Hm;
    [exact Hm |].
  cbn [foldl fst snd]. apply IH.
  destruct (decide (k = key)) as [-> | Hne].
  - rewrite lookup_insert_eq. eauto.
  - rewrite lookup_insert_ne by exact Hne. exact Hm.
Qed.

Ltac settle_savable :=
  run_step; intros; use_links; subst; unfold ready, savable in *;
  repeat match goal with
  | H : _ /\ _ |- _ => destruct H
  | H : exists _, _ |- _ => destruct H
  end;
  simplify_eq/=; repeat case_match; simplify_eq/=;
  repeat match goal with
  | H : ?b = true -> exists _, _, Hb : ?b = true |- _ =>
      destruct (H Hb); clear H
  | H : true = true -> exists _, _ |- _ => destruct (H eq_refl); clear H
  end;
  simplify_eq/=;
  repeat match goal with |- _ /\ _ => split end;
  try solve [ eauto
            | do 2 eexists; (split; [reflexivity |]); cbn [metadata];
              first [ rewrite lookup_insert_ne by discriminate
                    | rewrite lookup_insert_eq ];
              eauto
            | match goal with
              | |- context [foldl ?f ?m ?writes] =>
                  let v := fresh "v" in
                  let Hv := fresh "Hv" in
                  destruct (written_keeps_key writes m "spent-times")
                    as [v Hv]; [eauto | do 2 eexists; split; eauto]
              end ].

Lemma save_returns_when_ready (E : Env) (b : bool) :
  obliging E ->
  spec (ready b) (save E) (fun r _ => r = Ok tt).
Proof.
  intros (Hgp & Hwf & Hds).
  unfold_save. cbn [when].
  spec_walk_until (ready b)
    ltac:(exfalso; first [ eapply Hgp; eassumption
                         | eapply Hwf; eassumption
                         | rewrite Hds in *; discriminate
                         | settle_savable ])
    ltac:(idtac;
          match goal with
          | |- spec _ (mbind _ (when (_active _) _)) _ => idtac
          end);
    try (lazymatch goal with
         | |- spec _ (mbind _ (when (_active _) _)) _ => fail
         | |- _ => solve [settle_savable]
         end).
  apply (spec_seq _ savable); [| intros ?].
  - spec_walk (ready b) ltac:(exfalso; settle_savable); settle_savable.
  - spec_walk savable
      ltac:(exfalso; first [ eapply Hgp; eassumption
                           | eapply Hwf; eassumption
                           | rewrite Hds in *; discriminate
                           | settle_savable ]);
      try rewrite Hds; settle_savable.
Qed.

(** X27: [save()] returns normally whenever the journal entry, if there
    is one, has the [spent-times] key, an active activity knows since
    when it is active, and none of [get_preview], [write_file] and
    [datastore.write] raises. *)
Theorem save_returns (E : Env) (w : World) :
  obliging E ->
  (forall j, _jobject (activity w) = Some j ->
             is_Some (metadata j !! "spent-times")) ->
  (_active (activity w) = true -> is_Some (_active_time (activity w))) ->
  result_of (save E w) = Ok tt.
Proof.
  intros HE Hkey Htime.
  destruct (_jobject (activity w)) as [j |] eqn:Hj.
  - apply (save_returns_when_ready E (_active (activity w)) HE w).
    destruct (Hkey j eq_refl) as [v Hv].
    unfold ready, savable. repeat split; eauto.
  - unfold save. run_monad. rewrite Hj. reflexivity.
Qed.

Lemma sample_env_obliging : obliging sample_env.
Proof.
  split; [intros a H; discriminate H |].
  split; [intros a path H; discriminate H | reflexivity].
Defined.

Lemma save_returns_witness :
  result_of (save sample_env foreground_world) = Ok tt.
Proof.
  apply (save_returns sample_env foreground_world sample_env_obliging).
  - intros j Hj. injection Hj as <-. exists "0". reflexivity.
  - intros _. exists 900. reflexivity.
Defined.

Lemma saves_never_overlap_witness :
  (ds_pending (world_of (perform sample_env DoSave
                 (world_of (perform sample_env (DoClose false) sample_world))))
   <= 1)%nat.
Proof.
  apply (saves_never_overlap sample_world).
  - split; [simpl; lia | reflexivity].
  - eapply reachable_step.
    + eapply reachable_step; [apply reachable_start |].
      apply (step_perform sample_env (DoClose false) sample_world).
      reflexivity.
    + apply (step_perform sample_env DoSave). reflexivity.
Defined.
